(** * ForwardCommandControllerNewComponents

    A shallow embedding of
    [forward_command_controller/src/forward_command_controller_new_components.cpp]
    and the properties of its lifecycle callbacks and of its control cycle.

    The controller is a C++ object whose methods mutate its members and call
    into the resource manager and the claimed joints.  Every method is a
    function from the state before the call to the value returned and the
    state after it.  Diagnostics written through the RCLCPP logging macros
    are not part of the state. *)

From Stdlib Require Import String List Bool Arith Lia PrimFloat.
Import ListNotations.
Local Open Scope string_scope.
Local Open Scope list_scope.

(** ** Types of the collaborators *)

Module hardware_interface.
(** [hardware_interface::return_type].  The controller only ever compares
    a value of this type with [OK]; every other value is a refusal. *)
Inductive return_type : Type :=
| OK
| ERROR
| OTHER (code : nat).

Definition is_OK (r : return_type) : bool :=
  match r with
  | OK => true
  | _ => false
  end.
End hardware_interface.

Module controller_interface.
(** [controller_interface::return_type], the value of [update]. *)
Inductive return_type : Type :=
| SUCCESS
| ERROR.
End controller_interface.

Module CallbackReturn.
(** [LifecycleNodeInterface::CallbackReturn], the value of a lifecycle
    callback. *)
Inductive t : Type :=
| SUCCESS
| FAILURE
| ERROR.
End CallbackReturn.

Module rclcpp.
(** [rclcpp::Parameter] with its [ParameterValue]: a value tagged with its type. *)
Inductive ParameterValue : Type :=
| PARAMETER_NOT_SET
| PARAMETER_BOOL (b : bool)
| PARAMETER_INTEGER (n : nat)
| PARAMETER_DOUBLE (d : float)
| PARAMETER_STRING (s : string)
| PARAMETER_BOOL_ARRAY (l : list bool)
| PARAMETER_INTEGER_ARRAY (l : list nat)
| PARAMETER_DOUBLE_ARRAY (l : list float)
| PARAMETER_STRING_ARRAY (l : list string).

(** [Parameter::as_string_array] and [Parameter::as_string] throw a
    [ParameterTypeException] on a value of another type: [None]. *)
Definition as_string_array (p : ParameterValue) : option (list string) :=
  match p with
  | PARAMETER_STRING_ARRAY l => Some l
  | _ => None
  end.

Definition as_string (p : ParameterValue) : option string :=
  match p with
  | PARAMETER_STRING s => Some s
  | _ => None
  end.

(** The parameters of the lifecycle node: [get_parameter name] is [None]
    where the C++ call returns [false]. *)
Definition LifecycleNode : Type := string -> option ParameterValue.

Definition get_parameter (node : LifecycleNode) (name : string)
  : option ParameterValue := node name.

(** [rclcpp_lifecycle::State], the argument of the lifecycle callbacks. *)
Inductive State : Type :=
| PRIMARY_STATE_UNKNOWN
| PRIMARY_STATE_UNCONFIGURED
| PRIMARY_STATE_INACTIVE
| PRIMARY_STATE_ACTIVE
| PRIMARY_STATE_FINALIZED.

(** What a lifecycle callback does: it returns, or an exception leaves it. *)
Inductive Outcome : Type :=
| Returned (r : CallbackReturn.t)
| Thrown_ParameterTypeException.
End rclcpp.

(** [CmdType] is [std_msgs::msg::Float64MultiArray]; the controller reads
    its [data] only. *)
Record CmdType : Type := { data : list float }.

(** The subscription held in [joints_command_subscriber_]. *)
Record Subscription : Type := { topic : string }.

(** The resource manager and the joints it hands out.  [H] is the state of
    the hardware side (the registry of claims and the joint objects), [J] a
    [std::shared_ptr<hardware_interface::components::Joint>].  The three
    operations are the ones the controller calls:
    [ResourceManager::check_command_interfaces] (a query),
    [ResourceManager::claim_command_handle] (its third component is the
    value left in the output argument [joint_handle]), and
    [Joint::set_command]. *)
Class Hardware (H J : Type) : Type := {
  check_command_interfaces :
    string -> list string -> H -> hardware_interface.return_type;
  claim_command_handle :
    string -> list string -> H -> hardware_interface.return_type * J * H;
  set_command :
    J -> list float -> list string -> H -> hardware_interface.return_type * H
}.

(** ** The controller *)

Section ForwardCommandController.

Context {H J : Type} {HW : Hardware H J}.

(** Modelled from the spec: the class declaration
    ([forward_command_controller_new_components.hpp]) is not among the
    sources.  The members are the ones the methods use, with the types
    their uses give them: the Joint Handle Set, the interface names, the
    real-time mailbox (empty, or holding the latest message) and the
    subscription. *)
Record Controller : Type := {
  joint_handles_ : list J;
  interfaces_ : list string;
  rt_command_ptr_ : option CmdType;
  joints_command_subscriber_ : option Subscription
}.

(** The controller together with what it points to: the hardware side,
    and whether [resource_manager_.lock()] yields a manager. *)
Record World : Type := {
  this : Controller;
  hw : H;
  resource_manager_ : bool
}.

(** The constructor: no handle, an empty mailbox, no subscription. *)
Definition ForwardCommandControllerNewComponents : Controller :=
  {| joint_handles_ := [];
     interfaces_ := [];
     rt_command_ptr_ := None;
     joints_command_subscriber_ := None |}.

Definition set_joint_handles (l : list J) (c : Controller) : Controller :=
  {| joint_handles_ := l;
     interfaces_ := interfaces_ c;
     rt_command_ptr_ := rt_command_ptr_ c;
     joints_command_subscriber_ := joints_command_subscriber_ c |}.

Definition set_interfaces (l : list string) (c : Controller) : Controller :=
  {| joint_handles_ := joint_handles_ c;
     interfaces_ := l;
     rt_command_ptr_ := rt_command_ptr_ c;
     joints_command_subscriber_ := joints_command_subscriber_ c |}.

Definition set_rt_command (m : option CmdType) (c : Controller) : Controller :=
  {| joint_handles_ := joint_handles_ c;
     interfaces_ := interfaces_ c;
     rt_command_ptr_ := m;
     joints_command_subscriber_ := joints_command_subscriber_ c |}.

Definition set_subscriber (s : option Subscription) (c : Controller)
  : Controller :=
  {| joint_handles_ := joint_handles_ c;
     interfaces_ := interfaces_ c;
     rt_command_ptr_ := rt_command_ptr_ c;
     joints_command_subscriber_ := s |}.

Definition with_this (c : Controller) (w : World) : World :=
  {| this := c; hw := hw w; resource_manager_ := resource_manager_ w |}.

Definition with_hw (h : H) (w : World) : World :=
  {| this := this w; hw := h; resource_manager_ := resource_manager_ w |}.

(** *** on_configure *)

(** The first loop: every requested joint is checked against
    [interfaces_]; the first refusal ends the callback. *)
Fixpoint check_loop (joint_names : list string) (w : World) : bool :=
  match joint_names with
  | [] => true
  | joint_name :: rest =>
      if hardware_interface.is_OK
           (check_command_interfaces joint_name (interfaces_ (this w)) (hw w))
      then check_loop rest w
      else false
  end.

(** The second loop: every joint is claimed and its handle appended to
    [joint_handles_]; the first refusal clears [joint_handles_] and ends
    the callback ([false]). *)
Fixpoint claim_loop (joint_names : list string) (w : World) : bool * World :=
  match joint_names with
  | [] => (true, w)
  | joint_name :: rest =>
      let '(r, joint_handle, h) :=
        claim_command_handle joint_name (interfaces_ (this w)) (hw w) in
      if hardware_interface.is_OK r
      then claim_loop rest
             (with_hw h
                (with_this
                   (set_joint_handles
                      (joint_handles_ (this w) ++ [joint_handle]) (this w))
                   w))
      else (false, with_hw h (with_this (set_joint_handles [] (this w)) w))
  end.

Definition empty (s : string) : bool :=
  match s with
  | EmptyString => true
  | _ => false
  end.

(** [interfaces_.push_back(interface_name)]. *)
Definition push_back_interface (interface_name : string) (w : World) : World :=
  with_this
    (set_interfaces (interfaces_ (this w) ++ [interface_name]) (this w)) w.

(** [joints_command_subscriber_ = create_subscription("commands", ...)]. *)
Definition create_subscription (w : World) : World :=
  with_this (set_subscriber (Some {| topic := "commands" |}) (this w)) w.

(** The second half of [on_configure], once the parameters are read and
    the interface name is pushed: lock the resource manager, check and
    claim the joints, subscribe. *)
Definition acquire (joint_names : list string) (w : World)
  : rclcpp.Outcome * World :=
  if resource_manager_ w then
    if check_loop joint_names w then
      let '(claimed, w) := claim_loop joint_names w in
      if claimed
      then (rclcpp.Returned CallbackReturn.SUCCESS, create_subscription w)
      else (rclcpp.Returned CallbackReturn.ERROR, w)
    else (rclcpp.Returned CallbackReturn.ERROR, w)
  else (rclcpp.Returned CallbackReturn.ERROR, w).

Definition on_configure (node : rclcpp.LifecycleNode)
    (previous_state : rclcpp.State) (w : World) : rclcpp.Outcome * World :=
  match rclcpp.get_parameter node "joints" with
  | None => (rclcpp.Returned CallbackReturn.ERROR, w)
  | Some joints_param =>
  match rclcpp.get_parameter node "interface_name" with
  | None => (rclcpp.Returned CallbackReturn.ERROR, w)
  | Some interface_param =>
  match rclcpp.as_string_array joints_param with
  | None => (rclcpp.Thrown_ParameterTypeException, w)
  | Some joint_names =>
  match joint_names with
  | [] => (rclcpp.Returned CallbackReturn.ERROR, w)
  | _ :: _ =>
  match rclcpp.as_string interface_param with
  | None => (rclcpp.Thrown_ParameterTypeException, w)
  | Some interface_name =>
  if empty interface_name
  then (rclcpp.Returned CallbackReturn.ERROR, w)
  else acquire joint_names (push_back_interface interface_name w)
  end end end end end.

(** *** on_activate, on_deactivate *)

Definition on_activate (previous_state : rclcpp.State) (w : World)
  : CallbackReturn.t * World :=
  (CallbackReturn.SUCCESS, w).

Definition on_deactivate (previous_state : rclcpp.State) (w : World)
  : CallbackReturn.t * World :=
  (CallbackReturn.SUCCESS, w).

(** *** The subscription callback *)

(** [rt_command_ptr_.writeFromNonRT(msg)]: the slot is overwritten. *)
Definition writeFromNonRT (msg : CmdType) (w : World) : World :=
  with_this (set_rt_command (Some msg) (this w)) w.

(** A message published on the topic reaches the callback when the
    controller holds a subscription. *)
Definition publish (msg : CmdType) (w : World) : World :=
  match joints_command_subscriber_ (this w) with
  | Some _ => writeFromNonRT msg w
  | None => w
  end.

(** *** update *)

(** The forwarding loop, [index] running up to [joint_num]; [remaining]
    is [joint_num - index].  Reading a vector past its end is undefined
    behaviour: [None].  The value [set_command] returns is dropped. *)
Fixpoint update_loop (remaining index : nat) (joint_commands : CmdType)
    (w : World) : option World :=
  match remaining with
  | 0 => Some w
  | S remaining' =>
      match nth_error (data joint_commands) index,
            nth_error (joint_handles_ (this w)) index with
      | Some value, Some joint_handle =>
          let '(_, h) :=
            set_command joint_handle [value] (interfaces_ (this w)) (hw w) in
          update_loop remaining' (S index) joint_commands (with_hw h w)
      | _, _ => None
      end
  end.

Definition update (w : World)
  : option (controller_interface.return_type * World) :=
  match rt_command_ptr_ (this w) with
  | None => Some (controller_interface.SUCCESS, w)
  | Some joint_commands =>
      let joint_num := length (data joint_commands) in
      if negb (Nat.eqb joint_num (length (joint_handles_ (this w))))
      then Some (controller_interface.ERROR, w)
      else
        match update_loop joint_num 0 joint_commands w with
        | Some w' => Some (controller_interface.SUCCESS, w')
        | None => None
        end
  end.

End ForwardCommandController.

(** ** Runs of the controller *)

Section Runs.

Context {H J : Type} {HW : Hardware H J}.

(** What the surrounding runtime does with a controller: the three
    lifecycle transitions, a control cycle, and a message published on the
    command topic. *)
Inductive Call : Type :=
| configure (node : rclcpp.LifecycleNode) (previous_state : rclcpp.State)
| activate (previous_state : rclcpp.State)
| deactivate (previous_state : rclcpp.State)
| cycle
| message (msg : CmdType).

(** The state after one call; [None] when the call runs into undefined
    behaviour.  An exception leaving [on_configure] leaves the state as it
    was when thrown. *)
Definition step (c : Call) (w : World) : option World :=
  match c with
  | configure node previous_state => Some (snd (on_configure node previous_state w))
  | activate previous_state => Some (snd (on_activate previous_state w))
  | deactivate previous_state => Some (snd (on_deactivate previous_state w))
  | cycle =>
      match update w with
      | Some (_, w') => Some w'
      | None => None
      end
  | message msg => Some (publish msg w)
  end.

Fixpoint run (calls : list Call) (w : World) : option World :=
  match calls with
  | [] => Some w
  | c :: rest =>
      match step c w with
      | Some w' => run rest w'
      | None => None
      end
  end.

(** [on_configure] reaches [interfaces_.push_back]: both parameters are
    set, the joint list and the interface name are read and not empty. *)
Definition passes_parameter_checks (node : rclcpp.LifecycleNode) : bool :=
  match rclcpp.get_parameter node "joints",
        rclcpp.get_parameter node "interface_name" with
  | Some (rclcpp.PARAMETER_STRING_ARRAY (_ :: _)),
    Some (rclcpp.PARAMETER_STRING interface_name) => negb (empty interface_name)
  | _, _ => false
  end.

Definition pushes (c : Call) : bool :=
  match c with
  | configure node _ => passes_parameter_checks node
  | _ => false
  end.

(** The interface name a call pushes onto [interfaces_], if any. *)
Definition interface_pushed (c : Call) : list string :=
  match c with
  | configure node _ =>
      if passes_parameter_checks node
      then match rclcpp.get_parameter node "interface_name" with
           | Some (rclcpp.PARAMETER_STRING interface_name) => [interface_name]
           | _ => []
           end
      else []
  | _ => []
  end.

(** A controller just constructed, with the hardware in state [h]. *)
Definition constructed (h : H) (alive : bool) : @World H J :=
  {| this := ForwardCommandControllerNewComponents;
     hw := h;
     resource_manager_ := alive |}.

(** Either the controller holds the subscription on the command topic, or
    it has never subscribed: then it holds no handle and its mailbox is
    empty. *)
Definition subscribed_or_idle (w : @World H J) : Prop :=
  joints_command_subscriber_ (this w) = Some {| topic := "commands" |}
  \/ (joints_command_subscriber_ (this w) = None
      /\ joint_handles_ (this w) = []
      /\ rt_command_ptr_ (this w) = None).

Definition is_message (c : Call) : bool :=
  match c with
  | message _ => true
  | _ => false
  end.

(** Successive claims that all succeed: from hardware state [h], claiming
    the joints of the list in order with [interfaces] returns the handles
    [handles] and leaves the hardware in [h']. *)
Inductive claims_ok (interfaces : list string)
  : list string -> H -> list J -> H -> Prop :=
| claims_ok_nil h : claims_ok interfaces [] h [] h
| claims_ok_cons joint_name rest h joint_handle h1 handles h2 :
    claim_command_handle joint_name interfaces h
      = (hardware_interface.OK, joint_handle, h1) ->
    claims_ok interfaces rest h1 handles h2 ->
    claims_ok interfaces (joint_name :: rest) h (joint_handle :: handles) h2.

(** The writes of one cycle, in index order: handle [i] receives the
    one-element sequence [[value i]] and [interfaces]; whatever the write
    returns, the next one follows. *)
Definition forward (interfaces : list string) (handles : list J)
    (values : list float) (h : H) : H :=
  fold_left
    (fun h (jv : J * float) =>
       snd (set_command (fst jv) [snd jv] interfaces h))
    (combine handles values) h.

End Runs.

(** ** A test rig *)

Module Rig.

(** What the rig has been asked to do, in order. *)
Inductive Event : Type :=
| Claimed (joint_name : string) (interfaces : list string)
| Refused (joint_name : string) (interfaces : list string)
| Written (joint_name : string) (values : list float) (interfaces : list string).

(** A recording resource manager: it knows the joints [registered] and the
    interfaces they offer, hands out a joint once, and records every claim
    and every write.  A joint in [faulty] reports an error on every write.
    A handle is the joint's name. *)
Record t : Type := {
  registered : list string;
  offered : list string;
  faulty : list string;
  trace : list Event
}.

Definition mem (s : string) (l : list string) : bool :=
  existsb (String.eqb s) l.

Definition is_claimed (joint_name : string) (r : t) : bool :=
  existsb
    (fun e => match e with
              | Claimed j _ => String.eqb j joint_name
              | _ => false
              end)
    (trace r).

Definition record (e : Event) (r : t) : t :=
  {| registered := registered r;
     offered := offered r;
     faulty := faulty r;
     trace := trace r ++ [e] |}.

Definition check (joint_name : string) (interfaces : list string) (r : t)
  : hardware_interface.return_type :=
  if mem joint_name (registered r)
     && forallb (fun i => mem i (offered r)) interfaces
  then hardware_interface.OK
  else hardware_interface.ERROR.

Definition claim (joint_name : string) (interfaces : list string) (r : t)
  : hardware_interface.return_type * string * t :=
  if hardware_interface.is_OK (check joint_name interfaces r)
     && negb (is_claimed joint_name r)
  then (hardware_interface.OK, joint_name,
        record (Claimed joint_name interfaces) r)
  else (hardware_interface.ERROR, "",
        record (Refused joint_name interfaces) r).

Definition write (joint_handle : string) (values : list float)
    (interfaces : list string) (r : t) : hardware_interface.return_type * t :=
  (if mem joint_handle (faulty r)
   then hardware_interface.ERROR
   else hardware_interface.OK,
   record (Written joint_handle values interfaces) r).

#[export] Instance hardware : Hardware t string :=
  {| check_command_interfaces := check;
     claim_command_handle := claim;
     set_command := write |}.

(** The same rig with joints whose every write reports an error; the
    write is recorded all the same. *)
Definition failing_write (joint_handle : string) (values : list float)
    (interfaces : list string) (r : t) : hardware_interface.return_type * t :=
  (hardware_interface.ERROR,
   record (Written joint_handle values interfaces) r).

Definition failing_hardware : Hardware t string :=
  {| check_command_interfaces := check;
     claim_command_handle := claim;
     set_command := failing_write |}.

(** Three joints offering position and velocity, nothing claimed. *)
Definition bench : t :=
  {| registered := ["j1"; "j2"; "j3"];
     offered := ["position"; "velocity"];
     faulty := [];
     trace := [] |}.

(** The same bench with a joint whose writes fail. *)
Definition faulty_bench : t :=
  {| registered := ["j1"; "j2"; "j3"];
     offered := ["position"; "velocity"];
     faulty := ["j2"];
     trace := [] |}.

(** A node whose parameters are a joint list and an interface name. *)
Definition node (joints : list string) (interface_name : string)
  : rclcpp.LifecycleNode :=
  fun name =>
    if String.eqb name "joints"
    then Some (rclcpp.PARAMETER_STRING_ARRAY joints)
    else if String.eqb name "interface_name"
    then Some (rclcpp.PARAMETER_STRING interface_name)
    else None.

(** A controller just constructed, on a given bench. *)
Definition fresh (r : t) : @World t string := constructed r true.

Definition configured (joints : list string) (interface_name : string)
    (w : @World t string) : @World t string :=
  snd (on_configure (node joints interface_name)
         rclcpp.PRIMARY_STATE_UNCONFIGURED w).

Definition msg123 : CmdType := {| data := [1.0%float; 2.0%float; 3.0%float] |}.

End Rig.


(** ** Properties *)

Section Properties.

Context {H J : Type} {HW : Hardware H J}.

Local Abbreviation World := (@World H J).

(** *** Records *)

Lemma with_hw_same (w : World) : with_hw (hw w) w = w.
Proof. destruct w; reflexivity. Qed.

(** *** The forwarding loop *)

(** From index [length dp] on, the loop writes the remaining values to the
    remaining handles, and never reads past the end. *)
Lemma update_loop_forward (msg : CmdType) :
  forall ds hs dp hp (w : World),
    data msg = dp ++ ds ->
    joint_handles_ (this w) = hp ++ hs ->
    length hp = length dp ->
    length hs = length ds ->
    update_loop (length ds) (length dp) msg w
    = Some (with_hw (forward (interfaces_ (this w)) hs ds (hw w)) w).
Proof.
  induction ds as [|d ds IH]; intros hs dp hp w Hd Hh Hp Hs.
  - destruct hs; [|discriminate].
    cbn. now rewrite with_hw_same.
  - destruct hs as [|x hs]; [discriminate|].
    cbn [length update_loop].
    rewrite Hd, Hh.
    rewrite nth_error_app2, Nat.sub_diag by lia.
    rewrite <- Hp.
    rewrite nth_error_app2, Nat.sub_diag by lia.
    cbn [nth_error].
    destruct (set_command x [d] (interfaces_ (this w)) (hw w)) as [r h] eqn:E.
    specialize (IH hs (dp ++ [d]) (hp ++ [x]) (with_hw h w)).
    rewrite !length_app in IH. cbn [length] in IH.
    rewrite Hp, Nat.add_1_r in *.
    rewrite IH.
    + unfold forward. cbn. rewrite E. reflexivity.
    + rewrite Hd, <- app_assoc. reflexivity.
    + cbn. rewrite Hh, <- app_assoc. reflexivity.
    + reflexivity.
    + cbn in Hs. lia.
Qed.

(** A cycle whose message has one value per handle. *)
Lemma update_matching (w : World) (msg : CmdType) :
  rt_command_ptr_ (this w) = Some msg ->
  length (data msg) = length (joint_handles_ (this w)) ->
  update w
  = Some (controller_interface.SUCCESS,
          with_hw
            (forward (interfaces_ (this w)) (joint_handles_ (this w))
               (data msg) (hw w))
            w).
Proof.
  intros Hm Hl. unfold update. rewrite Hm, Hl, Nat.eqb_refl. cbn [negb].
  rewrite <- Hl.
  change (length (data msg)) with (length (@nil float) + length (data msg)) at 1.
  pose proof (update_loop_forward msg (data msg) (joint_handles_ (this w))
                [] [] w eq_refl eq_refl eq_refl (eq_sym Hl)) as E.
  cbn [length] in E. cbn [length Nat.add]. rewrite E. reflexivity.
Qed.

(** [update] never reads a vector past its end. *)
Lemma update_defined (w : World) :
  exists r w', update w = Some (r, w').
Proof.
  unfold update.
  destruct (rt_command_ptr_ (this w)) as [msg|] eqn:Hm; [|eauto].
  destruct (Nat.eqb (length (data msg)) (length (joint_handles_ (this w))))
    eqn:E; cbn [negb]; [|eauto].
  apply Nat.eqb_eq in E.
  pose proof (update_matching w msg Hm E) as U. unfold update in U.
  rewrite Hm, E, Nat.eqb_refl in U. cbn [negb] in U. rewrite <- E in U.
  destruct (update_loop _ _ _ _); [eauto|discriminate].
Qed.

(** *** The two loops of on_configure *)

Lemma is_OK_false (r : hardware_interface.return_type) :
  hardware_interface.is_OK r = false <-> r <> hardware_interface.OK.
Proof. destruct r; cbn; split; intros; congruence. Qed.

Lemma is_OK_true (r : hardware_interface.return_type) :
  hardware_interface.is_OK r = true <-> r = hardware_interface.OK.
Proof. destruct r; cbn; split; intros; congruence. Qed.

Lemma check_loop_true (names : list string) (w : World) :
  check_loop names w = true <->
  (forall j, In j names ->
     check_command_interfaces j (interfaces_ (this w)) (hw w)
     = hardware_interface.OK).
Proof.
  induction names as [|n names IH]; cbn.
  - split; [intros _ j []|reflexivity].
  - destruct (hardware_interface.is_OK _) eqn:E.
    + apply is_OK_true in E. rewrite IH. split.
      * intros A j [<-|Hj]; auto.
      * intros A j Hj. apply A. now right.
    + apply is_OK_false in E. split; [discriminate|].
      intros A. exfalso. apply E, A. now left.
Qed.

Lemma check_loop_false (names : list string) (w : World) :
  (exists j, In j names /\
     check_command_interfaces j (interfaces_ (this w)) (hw w)
     <> hardware_interface.OK) ->
  check_loop names w = false.
Proof.
  intros (j & Hj & Hn).
  destruct (check_loop names w) eqn:E; [|reflexivity].
  exfalso. apply Hn. now apply (proj1 (check_loop_true names w)).
Qed.

(** The claim loop touches [joint_handles_] and the hardware only. *)
Lemma claim_loop_frame (names : list string) :
  forall (w : World) b w',
    claim_loop names w = (b, w') ->
    interfaces_ (this w') = interfaces_ (this w)
    /\ rt_command_ptr_ (this w') = rt_command_ptr_ (this w)
    /\ joints_command_subscriber_ (this w')
       = joints_command_subscriber_ (this w)
    /\ resource_manager_ w' = resource_manager_ w.
Proof.
  induction names as [|n names IH]; intros w b w' E; cbn in E.
  - inversion E; subst; auto.
  - destruct (claim_command_handle n (interfaces_ (this w)) (hw w))
      as [[r x] h].
    destruct (hardware_interface.is_OK r).
    + apply IH in E. cbn in E. exact E.
    + inversion E; subst; cbn; auto.
Qed.

(** When every claim succeeds the handles are appended in the order of
    the joint names. *)
Lemma claim_loop_ok (ifs names : list string) :
  forall (w : World) handles h',
    interfaces_ (this w) = ifs ->
    claims_ok ifs names (hw w) handles h' ->
    claim_loop names w
    = (true,
       with_hw h'
         (with_this
            (set_joint_handles (joint_handles_ (this w) ++ handles) (this w))
            w)).
Proof.
  induction names as [|n names IH]; intros w handles h' Hi C;
    inversion C; subst; cbn.
  - rewrite app_nil_r. destruct w as [[] ? ?]; reflexivity.
  - match goal with E : claim_command_handle _ _ _ = _ |- _ => rewrite E end.
    cbn. erewrite IH; [|reflexivity|cbn; eassumption].
    cbn. rewrite <- app_assoc. reflexivity.
Qed.

Lemma claim_loop_true_inv (names : list string) :
  forall (w w' : World),
    claim_loop names w = (true, w') ->
    exists handles,
      claims_ok (interfaces_ (this w)) names (hw w) handles (hw w')
      /\ joint_handles_ (this w') = joint_handles_ (this w) ++ handles.
Proof.
  induction names as [|n names IH]; intros w w' E; cbn in E.
  - inversion E; subst. exists []. split; [constructor|now rewrite app_nil_r].
  - destruct (claim_command_handle n (interfaces_ (this w)) (hw w))
      as [[r x] h] eqn:C.
    destruct (hardware_interface.is_OK r) eqn:R; [|discriminate].
    apply is_OK_true in R; subst r.
    apply IH in E. cbn in E. destruct E as (handles & Hc & Hj).
    exists (x :: handles). split.
    + econstructor; eassumption.
    + rewrite Hj, <- app_assoc. reflexivity.
Qed.

(** The first refusal clears the handle set, however many joints were
    claimed before it. *)
Lemma claim_loop_refused (ifs pre : list string) :
  forall (w : World) j suf handles h1,
    interfaces_ (this w) = ifs ->
    claims_ok ifs pre (hw w) handles h1 ->
    fst (fst (claim_command_handle j ifs h1)) <> hardware_interface.OK ->
    claim_loop (pre ++ j :: suf) w
    = (false,
       with_hw (snd (claim_command_handle j ifs h1))
         (with_this (set_joint_handles [] (this w)) w)).
Proof.
  induction pre as [|n pre IH]; intros w j suf handles h1 Hi C R;
    inversion C; subst; cbn.
  - destruct (claim_command_handle j (interfaces_ (this w)) (hw w))
      as [[r x] h].
    cbn in R. apply is_OK_false in R. rewrite R. reflexivity.
  - match goal with E : claim_command_handle _ _ _ = _ |- _ => rewrite E end.
    cbn. erewrite IH; [|reflexivity|cbn; eassumption|exact R].
    reflexivity.
Qed.

Lemma claim_loop_false_inv (names : list string) :
  forall (w w' : World),
    claim_loop names w = (false, w') ->
    joint_handles_ (this w') = [].
Proof.
  induction names as [|n names IH]; intros w w' E; cbn in E.
  - discriminate.
  - destruct (claim_command_handle n (interfaces_ (this w)) (hw w))
      as [[r x] h].
    destruct (hardware_interface.is_OK r).
    + now apply IH in E.
    + inversion E; subst. reflexivity.
Qed.

Lemma claims_ok_length (ifs names : list string) (h h' : H) (handles : list J) :
  claims_ok ifs names h handles h' -> length handles = length names.
Proof. induction 1; cbn; congruence. Qed.

Lemma claims_ok_nth (ifs names : list string) (h h' : H) (handles : list J) :
  claims_ok ifs names h handles h' ->
  forall i joint_name,
    nth_error names i = Some joint_name ->
    exists joint_handle hi hi',
      nth_error handles i = Some joint_handle
      /\ claim_command_handle joint_name ifs hi
         = (hardware_interface.OK, joint_handle, hi').
Proof.
  induction 1 as [|n rest h x h1 handles h2 E C IH]; intros i joint_name Hn.
  - destruct i; discriminate.
  - destruct i as [|i]; cbn in *.
    + inversion Hn; subst. eauto.
    + eauto.
Qed.

(** [on_configure] on a node whose parameters pass the checks. *)
Lemma on_configure_checked (node : rclcpp.LifecycleNode)
    (previous_state : rclcpp.State) (w : World) names interface_name :
  rclcpp.get_parameter node "joints"
  = Some (rclcpp.PARAMETER_STRING_ARRAY names) ->
  rclcpp.get_parameter node "interface_name"
  = Some (rclcpp.PARAMETER_STRING interface_name) ->
  names <> [] ->
  interface_name <> "" ->
  on_configure node previous_state w
  = acquire names (push_back_interface interface_name w).
Proof.
  intros Hj Hi Hn He. unfold on_configure. rewrite Hj, Hi. cbn.
  destruct names; [congruence|].
  destruct interface_name; [congruence|]. reflexivity.
Qed.

(** What [acquire] and [on_configure] leave alone. *)
Lemma acquire_frame (names : list string) (w : World) :
  interfaces_ (this (snd (acquire names w))) = interfaces_ (this w)
  /\ rt_command_ptr_ (this (snd (acquire names w))) = rt_command_ptr_ (this w)
  /\ resource_manager_ (snd (acquire names w)) = resource_manager_ w.
Proof.
  unfold acquire.
  destruct (resource_manager_ w) eqn:A; [|cbn; auto].
  destruct (check_loop names w); [|cbn; auto].
  destruct (claim_loop names w) as [b w'] eqn:E.
  apply claim_loop_frame in E. destruct E as (E1 & E2 & _ & E4).
  destruct b; cbn; rewrite E1, E2, E4; auto.
Qed.

Lemma on_configure_frame (node : rclcpp.LifecycleNode)
    (previous_state : rclcpp.State) (w : World) :
  rt_command_ptr_ (this (snd (on_configure node previous_state w)))
  = rt_command_ptr_ (this w)
  /\ interfaces_ (this (snd (on_configure node previous_state w)))
     = interfaces_ (this w) ++ interface_pushed (configure node previous_state).
Proof.
  unfold on_configure, interface_pushed, passes_parameter_checks.
  destruct (rclcpp.get_parameter node "joints") as [pj|];
    [|cbn; now rewrite app_nil_r].
  destruct (rclcpp.get_parameter node "interface_name") as [pi|];
    [|destruct pj as [| | | | | | | |[|]]; cbn; now rewrite app_nil_r].
  destruct pj as [| | | | | | | |[|n names]]; cbn;
    try now rewrite app_nil_r.
  destruct pi as [| | | |iface| | | |]; cbn; try now rewrite app_nil_r.
  destruct (empty iface); cbn; [now rewrite app_nil_r|].
  destruct (acquire_frame (n :: names) (push_back_interface iface w))
    as (E1 & E2 & _).
  rewrite E1, E2. cbn. auto.
Qed.

(** *** Runs *)

Lemma step_defined (c : Call) (w : World) : exists w', step c w = Some w'.
Proof.
  destruct c; cbn; eauto.
  destruct (update_defined w) as (r & w' & E). rewrite E. eauto.
Qed.

Lemma update_this (w : World) r w' :
  update w = Some (r, w') -> this w' = this w.
Proof.
  unfold update.
  destruct (rt_command_ptr_ (this w)) as [msg|] eqn:Hm;
    [|intros E; inversion E; reflexivity].
  destruct (Nat.eqb (length (data msg)) (length (joint_handles_ (this w))))
    eqn:L; cbn [negb]; [|intros E; inversion E; reflexivity].
  apply Nat.eqb_eq in L.
  pose proof (update_matching w msg Hm L) as U. unfold update in U.
  rewrite Hm, L, Nat.eqb_refl in U. cbn [negb] in U. rewrite <- L in U.
  destruct (update_loop _ _ _ _); [|discriminate].
  intros E. inversion E; subst. inversion U; subst. reflexivity.
Qed.

Lemma step_interfaces (c : Call) (w w' : World) :
  step c w = Some w' ->
  interfaces_ (this w') = interfaces_ (this w) ++ interface_pushed c.
Proof.
  destruct c as [node st|st|st| |msg]; cbn [step]; intros E.
  - inversion E; subst. apply on_configure_frame.
  - inversion E; subst. cbn. now rewrite app_nil_r.
  - inversion E; subst. cbn. now rewrite app_nil_r.
  - destruct (update w) as [[r w1]|] eqn:U; [|discriminate].
    inversion E; subst. apply update_this in U. rewrite U. cbn.
    now rewrite app_nil_r.
  - inversion E; subst. unfold publish.
    destruct (joints_command_subscriber_ (this w)); cbn;
      now rewrite app_nil_r.
Qed.

Lemma run_interfaces (calls : list Call) :
  forall w : World,
    exists w',
      run calls w = Some w'
      /\ interfaces_ (this w')
         = interfaces_ (this w) ++ flat_map interface_pushed calls.
Proof.
  induction calls as [|c calls IH]; intros w; cbn.
  - exists w. now rewrite app_nil_r.
  - destruct (step_defined c w) as (w1 & E). rewrite E.
    destruct (IH w1) as (w' & R & I). exists w'. split; [exact R|].
    rewrite I, (step_interfaces c w w1 E), <- app_assoc. reflexivity.
Qed.

Lemma pushed_count (calls : list Call) :
  length (flat_map interface_pushed calls) = length (filter pushes calls).
Proof.
  induction calls as [|c calls IH]; [reflexivity|].
  cbn [flat_map filter]. rewrite length_app, IH.
  destruct c as [node st|st|st| |msg]; cbn; try reflexivity.
  unfold passes_parameter_checks.
  destruct (rclcpp.get_parameter node "joints")
    as [[| | | | | | | |[|]]|]; cbn; try reflexivity.
  destruct (rclcpp.get_parameter node "interface_name")
    as [[| | | |iface| | | |]|]; cbn; try reflexivity.
  destruct (empty iface); reflexivity.
Qed.

Lemma run_without_message (calls : list Call) :
  forall w : World,
    rt_command_ptr_ (this w) = None ->
    forallb (fun c => negb (is_message c)) calls = true ->
    exists w', run calls w = Some w' /\ rt_command_ptr_ (this w') = None.
Proof.
  induction calls as [|c calls IH]; intros w Hm Hc; cbn.
  - eauto.
  - cbn in Hc. apply andb_true_iff in Hc. destruct Hc as [Hc Hcs].
    destruct c as [node st|st|st| |msg]; cbn in Hc |- *; try discriminate.
    + apply IH; [|exact Hcs].
      rewrite (proj1 (on_configure_frame node st w)). exact Hm.
    + apply IH; assumption.
    + apply IH; assumption.
    + unfold update. rewrite Hm. apply IH; assumption.
Qed.

(** *** on_configure: failure *)

(** The two failing paths of [on_configure] past the lock.  In a run of
    [on_configure] that reaches the resource manager, a joint refused by
    the availability check, or by the claim, makes the callback return
    ERROR.  After a refused claim
    [joint_handles_] is empty, however many joints of the list were claimed
    before it.  After a refused availability check nothing was claimed and
    [joint_handles_] and the hardware are as they were at entry: empty
    when the controller held no handle. *)
Theorem configure_failure_returns_error (node : rclcpp.LifecycleNode)
    (previous_state : rclcpp.State) (w : World)
    (names : list string) (interface_name : string) :
  rclcpp.get_parameter node "joints"
  = Some (rclcpp.PARAMETER_STRING_ARRAY names) ->
  rclcpp.get_parameter node "interface_name"
  = Some (rclcpp.PARAMETER_STRING interface_name) ->
  names <> [] ->
  interface_name <> "" ->
  resource_manager_ w = true ->
  let ifs := interfaces_ (this w) ++ [interface_name] in
  let r := on_configure node previous_state w in
  ((exists j, In j names /\
      check_command_interfaces j ifs (hw w) <> hardware_interface.OK) ->
   fst r = rclcpp.Returned CallbackReturn.ERROR
   /\ joint_handles_ (this (snd r)) = joint_handles_ (this w)
   /\ hw (snd r) = hw w)
  /\
  ((forall j, In j names ->
      check_command_interfaces j ifs (hw w) = hardware_interface.OK) ->
   forall pre j suf handles h1,
     names = pre ++ j :: suf ->
     claims_ok ifs pre (hw w) handles h1 ->
     fst (fst (claim_command_handle j ifs h1)) <> hardware_interface.OK ->
     fst r = rclcpp.Returned CallbackReturn.ERROR
     /\ joint_handles_ (this (snd r)) = []).
Proof.
  intros Hj Hi Hn He Ha ifs r. subst r.
  rewrite (on_configure_checked node previous_state w names interface_name
             Hj Hi Hn He).
  unfold acquire. cbn [push_back_interface with_this resource_manager_].
  rewrite Ha. split.
  - intros Hx. rewrite check_loop_false; [cbn; auto|exact Hx].
  - intros Hc pre j suf handles h1 Hs Hp Hr.
    rewrite (proj2 (check_loop_true names _)) by exact Hc.
    subst names.
    erewrite claim_loop_refused; [|reflexivity|exact Hp|exact Hr].
    cbn. auto.
Qed.

(** *** on_configure: success *)

(** The handles after a successful [on_configure].  A run of
    [on_configure] that returns SUCCESS appends to [joint_handles_] the handles the claim calls returned, in
    the order of the joint names.  When [joint_handles_] is empty at entry
    it then has the length of the joint list, and its [i]-th element is the
    handle returned by the claim of the [i]-th joint name. *)
Theorem configure_success_alignment (node : rclcpp.LifecycleNode)
    (previous_state : rclcpp.State) (w : World)
    (names : list string) (interface_name : string) :
  rclcpp.get_parameter node "joints"
  = Some (rclcpp.PARAMETER_STRING_ARRAY names) ->
  rclcpp.get_parameter node "interface_name"
  = Some (rclcpp.PARAMETER_STRING interface_name) ->
  fst (on_configure node previous_state w)
  = rclcpp.Returned CallbackReturn.SUCCESS ->
  let ifs := interfaces_ (this w) ++ [interface_name] in
  let w' := snd (on_configure node previous_state w) in
  exists handles,
    claims_ok ifs names (hw w) handles (hw w')
    /\ joint_handles_ (this w') = joint_handles_ (this w) ++ handles
    /\ (joint_handles_ (this w) = [] ->
        length (joint_handles_ (this w')) = length names
        /\ forall i joint_name,
             nth_error names i = Some joint_name ->
             exists joint_handle hi hi',
               nth_error (joint_handles_ (this w')) i = Some joint_handle
               /\ claim_command_handle joint_name ifs hi
                  = (hardware_interface.OK, joint_handle, hi')).
Proof.
  intros Hj Hi. unfold on_configure. rewrite Hj, Hi. cbn.
  destruct names as [|n names]; [discriminate|].
  destruct (empty interface_name); [discriminate|].
  unfold acquire. cbn [push_back_interface with_this resource_manager_].
  destruct (resource_manager_ w); [|discriminate].
  destruct (check_loop _ _); [|discriminate].
  destruct (claim_loop _ _) as [[|] w1] eqn:E; [|discriminate].
  intros _. apply claim_loop_true_inv in E. cbn in E.
  destruct E as (handles & C & A).
  exists handles. cbn. split; [exact C|]. split; [exact A|].
  intros Hempty. rewrite A, Hempty. cbn. split.
  - now apply claims_ok_length in C.
  - intros i joint_name Hn. eapply claims_ok_nth; eassumption.
Qed.

(** *** on_configure after a failed attempt *)

(** A second attempt after a refused one, as the code runs it.  On a
    controller holding no handle, an [on_configure] refused at the availability check returns ERROR; a
    following [on_configure] whose joints the resource manager accepts
    returns SUCCESS, fills [joint_handles_] with the handles of its joints
    in order, keeps the mailbox and holds the subscription.  The interface
    name of the failed attempt stays in [interfaces_] before the one of
    the second attempt, and it is this two-element list that the second
    attempt passes to the resource manager. *)
Theorem reconfigure_after_unavailable
    (node1 node2 : rclcpp.LifecycleNode) (state1 state2 : rclcpp.State)
    (w : World) (names1 names2 : list string) (interface1 interface2 : string)
    (handles : list J) (h2 : H) :
  rclcpp.get_parameter node1 "joints"
  = Some (rclcpp.PARAMETER_STRING_ARRAY names1) ->
  rclcpp.get_parameter node1 "interface_name"
  = Some (rclcpp.PARAMETER_STRING interface1) ->
  names1 <> [] -> interface1 <> "" ->
  rclcpp.get_parameter node2 "joints"
  = Some (rclcpp.PARAMETER_STRING_ARRAY names2) ->
  rclcpp.get_parameter node2 "interface_name"
  = Some (rclcpp.PARAMETER_STRING interface2) ->
  names2 <> [] -> interface2 <> "" ->
  resource_manager_ w = true ->
  joint_handles_ (this w) = [] ->
  (exists j, In j names1 /\
     check_command_interfaces j (interfaces_ (this w) ++ [interface1]) (hw w)
     <> hardware_interface.OK) ->
  let ifs := interfaces_ (this w) ++ [interface1; interface2] in
  (forall j, In j names2 ->
     check_command_interfaces j ifs (hw w) = hardware_interface.OK) ->
  claims_ok ifs names2 (hw w) handles h2 ->
  let r1 := on_configure node1 state1 w in
  let r2 := on_configure node2 state2 (snd r1) in
  fst r1 = rclcpp.Returned CallbackReturn.ERROR
  /\ fst r2 = rclcpp.Returned CallbackReturn.SUCCESS
  /\ this (snd r2)
     = {| joint_handles_ := handles;
          interfaces_ := ifs;
          rt_command_ptr_ := rt_command_ptr_ (this w);
          joints_command_subscriber_ := Some {| topic := "commands" |} |}
  /\ hw (snd r2) = h2
  /\ length handles = length names2.
Proof.
  intros Hj1 Hi1 Hn1 He1 Hj2 Hi2 Hn2 He2 Ha He Hx ifs Hc Hk r1 r2.
  subst r1 r2.
  rewrite (on_configure_checked node1 state1 w names1 interface1
             Hj1 Hi1 Hn1 He1).
  assert (E1 : acquire names1 (push_back_interface interface1 w)
               = (rclcpp.Returned CallbackReturn.ERROR,
                  push_back_interface interface1 w)).
  { unfold acquire. cbn [push_back_interface with_this resource_manager_].
    rewrite Ha, check_loop_false; [reflexivity|exact Hx]. }
  rewrite E1. cbn [fst snd].
  rewrite (on_configure_checked node2 state2 _ names2 interface2
             Hj2 Hi2 Hn2 He2).
  unfold acquire. cbn [push_back_interface with_this resource_manager_].
  rewrite Ha.
  rewrite (proj2 (check_loop_true names2 _));
    [|cbn; rewrite <- app_assoc; exact Hc].
  erewrite claim_loop_ok;
    [|reflexivity|cbn; rewrite <- app_assoc; exact Hk].
  cbn. rewrite He, <- app_assoc. cbn.
  repeat split. now apply claims_ok_length in Hk.
Qed.

(** *** on_activate, on_deactivate *)

(** C7.  [on_activate] and [on_deactivate] return SUCCESS from any
    previous state and leave the controller, the mailbox, the subscription
    and the hardware side as they were: nothing is claimed or released. *)
Theorem activate_deactivate_frame (previous_state : rclcpp.State) (w : World) :
  on_activate previous_state w = (CallbackReturn.SUCCESS, w)
  /\ on_deactivate previous_state w = (CallbackReturn.SUCCESS, w).
Proof. split; reflexivity. Qed.

(** C6 (as the code has it).  [on_deactivate] returns SUCCESS and keeps
    every claimed handle: [joint_handles_] is the same list after it, the
    hardware side is untouched, so nothing is released, and a control
    cycle after it does what it would have done before it: with one value
    per handle in the mailbox, it writes them through the same handles. *)
Theorem deactivate_keeps_handles (previous_state : rclcpp.State) (w : World) :
  let r := on_deactivate previous_state w in
  fst r = CallbackReturn.SUCCESS
  /\ joint_handles_ (this (snd r)) = joint_handles_ (this w)
  /\ hw (snd r) = hw w
  /\ update (snd r) = update w
  /\ forall msg,
       rt_command_ptr_ (this w) = Some msg ->
       length (data msg) = length (joint_handles_ (this w)) ->
       update (snd r)
       = Some (controller_interface.SUCCESS,
               with_hw
                 (forward (interfaces_ (this w)) (joint_handles_ (this w))
                    (data msg) (hw w))
                 w).
Proof.
  cbv zeta. repeat (split; [reflexivity|]).
  intros msg Hm Hl. exact (update_matching w msg Hm Hl).
Qed.

(** *** update *)

(** C2.  When the mailbox holds a message with one value per claimed
    handle, [update] returns SUCCESS after writing, in ascending index
    order, the one-element sequence [[data[i]]] with [interfaces_] to
    [joint_handles_[i]]. *)
Theorem update_forwards_in_index_order (w : World) (msg : CmdType) :
  rt_command_ptr_ (this w) = Some msg ->
  length (data msg) = length (joint_handles_ (this w)) ->
  update w
  = Some (controller_interface.SUCCESS,
          with_hw
            (fold_left
               (fun h (jv : J * float) =>
                  snd (set_command (fst jv) [snd jv] (interfaces_ (this w)) h))
               (combine (joint_handles_ (this w)) (data msg))
               (hw w))
            w).
Proof. intros Hm Hl. now rewrite (update_matching w msg Hm Hl). Qed.

(** C3.  When the mailbox holds a message whose length differs from the
    number of claimed handles, [update] returns ERROR and changes nothing,
    neither in the controller nor on the hardware side; the calls that
    follow run as if the cycle had not happened. *)
Theorem update_size_mismatch (w : World) (msg : CmdType) :
  rt_command_ptr_ (this w) = Some msg ->
  length (data msg) <> length (joint_handles_ (this w)) ->
  update w = Some (controller_interface.ERROR, w)
  /\ forall calls, run (cycle :: calls) w = run calls w.
Proof.
  intros Hm Hl.
  assert (U : update w = Some (controller_interface.ERROR, w)).
  { unfold update. rewrite Hm.
    apply Nat.eqb_neq in Hl. rewrite Hl. reflexivity. }
  split; [exact U|]. intros calls. cbn. rewrite U. reflexivity.
Qed.

(** C4.  As long as no message has been published, whatever lifecycle
    callbacks and cycles have run on the controller since its
    construction, [update] returns SUCCESS and changes nothing. *)
Theorem update_before_any_message (h : H) (alive : bool) (calls : list Call) :
  forallb (fun c => negb (is_message c)) calls = true ->
  exists w,
    run calls (constructed h alive) = Some w
    /\ update w = Some (controller_interface.SUCCESS, w).
Proof.
  intros Hc.
  destruct (run_without_message calls (constructed h alive) eq_refl Hc)
    as (w & R & M).
  exists w. split; [exact R|]. unfold update. now rewrite M.
Qed.

End Properties.

(** ** The hardware as seen from the controller *)

Section TwoHardware.

Context {H J : Type} (HW1 HW2 : Hardware H J).

Local Abbreviation World := (@World H J).

Lemma forward_results_ignored (ifs : list string) :
  (forall j v i h,
     snd (set_command (Hardware := HW1) j v i h)
     = snd (set_command (Hardware := HW2) j v i h)) ->
  forall handles values h,
    forward (HW := HW1) ifs handles values h
    = forward (HW := HW2) ifs handles values h.
Proof.
  intros A handles values. unfold forward.
  induction (combine handles values) as [|jv l IH]; intros h; cbn.
  - reflexivity.
  - rewrite A. apply IH.
Qed.

Lemma check_loop_agree (names : list string) (w : World) :
  (forall j h,
     check_command_interfaces (Hardware := HW1) j (interfaces_ (this w)) h
     = check_command_interfaces (Hardware := HW2) j (interfaces_ (this w)) h) ->
  check_loop (HW := HW1) names w = check_loop (HW := HW2) names w.
Proof.
  intros A. induction names as [|n names IH]; cbn; [reflexivity|].
  rewrite A, IH. reflexivity.
Qed.

Lemma claim_loop_agree (names : list string) :
  forall w : World,
    (forall j h,
       claim_command_handle (Hardware := HW1) j (interfaces_ (this w)) h
       = claim_command_handle (Hardware := HW2) j (interfaces_ (this w)) h) ->
    claim_loop (HW := HW1) names w = claim_loop (HW := HW2) names w.
Proof.
  induction names as [|n names IH]; intros w A; cbn; [reflexivity|].
  rewrite A.
  destruct (claim_command_handle (Hardware := HW2) n (interfaces_ (this w))
              (hw w)) as [[r x] h].
  destruct (hardware_interface.is_OK r); [|reflexivity].
  apply IH. cbn. exact A.
Qed.

Lemma update_loop_agree (msg : CmdType) (remaining : nat) :
  forall index (w : World),
    (forall j v h,
       set_command (Hardware := HW1) j v (interfaces_ (this w)) h
       = set_command (Hardware := HW2) j v (interfaces_ (this w)) h) ->
    update_loop (HW := HW1) remaining index msg w
    = update_loop (HW := HW2) remaining index msg w.
Proof.
  induction remaining as [|n IH]; intros index w A; cbn; [reflexivity|].
  destruct (nth_error (data msg) index); [|reflexivity].
  destruct (nth_error (joint_handles_ (this w)) index); [|reflexivity].
  rewrite A.
  destruct (set_command (Hardware := HW2) _ _ _ _) as [r h].
  apply IH. cbn. exact A.
Qed.

Lemma on_configure_agree (node : rclcpp.LifecycleNode)
    (previous_state : rclcpp.State) (w : World) :
  let ifs :=
    interfaces_ (this w) ++ interface_pushed (configure node previous_state) in
  (forall j h,
     check_command_interfaces (Hardware := HW1) j ifs h
     = check_command_interfaces (Hardware := HW2) j ifs h) ->
  (forall j h,
     claim_command_handle (Hardware := HW1) j ifs h
     = claim_command_handle (Hardware := HW2) j ifs h) ->
  on_configure (HW := HW1) node previous_state w
  = on_configure (HW := HW2) node previous_state w.
Proof.
  cbv zeta. unfold on_configure, interface_pushed, passes_parameter_checks.
  destruct (rclcpp.get_parameter node "joints") as [pj|]; [|reflexivity].
  destruct (rclcpp.get_parameter node "interface_name") as [pi|];
    [|reflexivity].
  destruct pj as [| | | | | | | |[|n names]]; cbn; try reflexivity.
  destruct pi as [| | | |iface| | | |]; cbn; try reflexivity.
  destruct (empty iface); cbn; [reflexivity|].
  intros A B. unfold acquire.
  cbn [push_back_interface with_this resource_manager_].
  destruct (resource_manager_ w); [|reflexivity].
  rewrite (check_loop_agree (n :: names) _) by exact A.
  rewrite (claim_loop_agree (n :: names) _) by exact B.
  reflexivity.
Qed.

Lemma update_agree (w : World) :
  (forall j v h,
     set_command (Hardware := HW1) j v (interfaces_ (this w)) h
     = set_command (Hardware := HW2) j v (interfaces_ (this w)) h) ->
  update (HW := HW1) w = update (HW := HW2) w.
Proof.
  intros A. unfold update.
  destruct (rt_command_ptr_ (this w)) as [msg|]; [|reflexivity].
  destruct (negb _); [reflexivity|].
  rewrite (update_loop_agree msg _ 0 w A). reflexivity.
Qed.

(** C9.  When the message has one value per handle, [update] returns
    SUCCESS with every write of the cycle applied, whatever the writes
    return: joints that differ only in the results of [set_command] give
    the same cycle, with the same return value. *)
Theorem update_ignores_write_results (w : World) (msg : CmdType) :
  rt_command_ptr_ (this w) = Some msg ->
  length (data msg) = length (joint_handles_ (this w)) ->
  (forall j v i h,
     snd (set_command (Hardware := HW1) j v i h)
     = snd (set_command (Hardware := HW2) j v i h)) ->
  update (HW := HW1) w
  = Some (controller_interface.SUCCESS,
          with_hw
            (forward (HW := HW1) (interfaces_ (this w))
               (joint_handles_ (this w)) (data msg) (hw w))
            w)
  /\ update (HW := HW2) w = update (HW := HW1) w.
Proof.
  intros Hm Hl A.
  rewrite (update_matching (HW := HW1) w msg Hm Hl).
  rewrite (update_matching (HW := HW2) w msg Hm Hl).
  rewrite (forward_results_ignored _ A). split; reflexivity.
Qed.

(** C10.  Every call of the controller leaves [interfaces_] as it was,
    except an [on_configure] whose parameters pass the checks, which
    appends its interface name, whether it later succeeds or not.  So
    after any calls on a constructed controller [interfaces_] holds the
    interface names of the passing [on_configure] calls in order, one
    entry per call.  The list so accumulated is the interface argument
    that reaches the hardware.  [on_configure] fails on the first joint
    whose availability check refuses that list, and when all pass, the
    hardware after it is what the claims made with that list leave, and
    the handles appended are the ones those claims return.  A cycle with
    one value per handle leaves the hardware as the writes made with
    [interfaces_] leave it.  And it is the only one: [on_configure] and
    [update] do not depend on what the resource manager and the joints
    would answer for any other list. *)
Theorem interfaces_accumulate :
  (forall (c : Call) (w w' : World),
     step (HW := HW1) c w = Some w' ->
     interfaces_ (this w') = interfaces_ (this w) ++ interface_pushed c)
  /\ (forall (calls : list Call) (h : H) (alive : bool),
       exists w,
         run (HW := HW1) calls (constructed h alive) = Some w
         /\ interfaces_ (this w) = flat_map interface_pushed calls
         /\ length (interfaces_ (this w)) = length (filter pushes calls))
  /\ (forall node previous_state (w : World),
       let ifs :=
         interfaces_ (this w)
         ++ interface_pushed (configure node previous_state) in
       (forall j h,
          check_command_interfaces (Hardware := HW1) j ifs h
          = check_command_interfaces (Hardware := HW2) j ifs h) ->
       (forall j h,
          claim_command_handle (Hardware := HW1) j ifs h
          = claim_command_handle (Hardware := HW2) j ifs h) ->
       on_configure (HW := HW1) node previous_state w
       = on_configure (HW := HW2) node previous_state w)
  /\ (forall w : World,
       (forall j v h,
          set_command (Hardware := HW1) j v (interfaces_ (this w)) h
          = set_command (Hardware := HW2) j v (interfaces_ (this w)) h) ->
       update (HW := HW1) w = update (HW := HW2) w)
  /\ (forall node previous_state (w : World) names interface_name,
       rclcpp.get_parameter node "joints"
       = Some (rclcpp.PARAMETER_STRING_ARRAY names) ->
       rclcpp.get_parameter node "interface_name"
       = Some (rclcpp.PARAMETER_STRING interface_name) ->
       names <> [] -> interface_name <> "" ->
       resource_manager_ w = true ->
       let ifs := interfaces_ (this w) ++ [interface_name] in
       ((exists j, In j names /\
           check_command_interfaces (Hardware := HW1) j ifs (hw w)
           <> hardware_interface.OK) ->
        on_configure (HW := HW1) node previous_state w
        = (rclcpp.Returned CallbackReturn.ERROR,
           push_back_interface interface_name w))
       /\ ((forall j, In j names ->
              check_command_interfaces (Hardware := HW1) j ifs (hw w)
              = hardware_interface.OK) ->
           forall handles h',
             claims_ok (HW := HW1) ifs names (hw w) handles h' ->
             on_configure (HW := HW1) node previous_state w
             = (rclcpp.Returned CallbackReturn.SUCCESS,
                {| this :=
                     {| joint_handles_ := joint_handles_ (this w) ++ handles;
                        interfaces_ := ifs;
                        rt_command_ptr_ := rt_command_ptr_ (this w);
                        joints_command_subscriber_ :=
                          Some {| topic := "commands" |} |};
                   hw := h';
                   resource_manager_ := true |})))
  /\ (forall (w : World) msg,
       rt_command_ptr_ (this w) = Some msg ->
       length (data msg) = length (joint_handles_ (this w)) ->
       update (HW := HW1) w
       = Some (controller_interface.SUCCESS,
               with_hw
                 (fold_left
                    (fun h (jv : J * float) =>
                       snd (set_command (Hardware := HW1) (fst jv) [snd jv]
                              (interfaces_ (this w)) h))
                    (combine (joint_handles_ (this w)) (data msg))
                    (hw w))
                 w)).
Proof.
  split; [|split; [|split; [|split; [|split]]]].
  - intros c w w'. apply step_interfaces.
  - intros calls h alive.
    destruct (run_interfaces (HW := HW1) calls (constructed h alive))
      as (w & R & I).
    exists w. cbn in I. rewrite I. repeat split; [exact R|].
    apply pushed_count.
  - apply on_configure_agree.
  - apply update_agree.
  - intros node previous_state w names interface_name Hj Hi Hn He Ha ifs.
    rewrite (on_configure_checked (HW := HW1) node previous_state w names
               interface_name Hj Hi Hn He).
    unfold acquire. cbn [push_back_interface with_this resource_manager_].
    rewrite Ha. split.
    + intros Hx. rewrite check_loop_false; [reflexivity|exact Hx].
    + intros Hc handles h' K.
      rewrite (proj2 (check_loop_true names _)) by exact Hc.
      erewrite claim_loop_ok; [|reflexivity|exact K].
      unfold create_subscription, with_hw, with_this, set_subscriber,
        set_joint_handles, set_interfaces.
      cbn. rewrite Ha. reflexivity.
  - intros w msg Hm Hl.
    now rewrite (update_matching (HW := HW1) w msg Hm Hl).
Qed.

End TwoHardware.

(** ** The properties on the test rig *)

Section OnTheRig.

Import Rig.

Local Abbreviation UNCONFIGURED := rclcpp.PRIMARY_STATE_UNCONFIGURED.
Local Abbreviation velocity3 :=
  (configured ["j1"; "j2"; "j3"] "velocity" (fresh bench)).

(** The failing paths on the rig: an unregistered joint after a
    registered one, and a joint listed twice, whose second claim is refused
    after two claims. *)
Lemma configure_failure_on_rig :
  (fst (on_configure (node ["j1"; "jX"] "velocity") UNCONFIGURED (fresh bench))
   = rclcpp.Returned CallbackReturn.ERROR
   /\ joint_handles_
        (this (configured ["j1"; "jX"] "velocity" (fresh bench))) = [])
  /\ (fst (on_configure (node ["j1"; "j2"; "j1"] "velocity") UNCONFIGURED
             (fresh bench))
      = rclcpp.Returned CallbackReturn.ERROR
      /\ joint_handles_
           (this (configured ["j1"; "j2"; "j1"] "velocity" (fresh bench))) = []).
Proof.
  split.
  - destruct (configure_failure_returns_error
                (node ["j1"; "jX"] "velocity") UNCONFIGURED (fresh bench)
                ["j1"; "jX"] "velocity" eq_refl eq_refl
                ltac:(discriminate) ltac:(discriminate) eq_refl) as [A _].
    destruct A as (E & K & _).
    + exists "jX". split; [right; left; reflexivity|].
      vm_compute. discriminate.
    + split; [exact E|exact K].
  - destruct (configure_failure_returns_error
                (node ["j1"; "j2"; "j1"] "velocity") UNCONFIGURED (fresh bench)
                ["j1"; "j2"; "j1"] "velocity" eq_refl eq_refl
                ltac:(discriminate) ltac:(discriminate) eq_refl) as [_ B].
    apply (B ltac:(intros j [<-|[<-|[<-|[]]]]; reflexivity)
             ["j1"; "j2"] "j1" [] ["j1"; "j2"]
             (record (Claimed "j2" ["velocity"])
                (record (Claimed "j1" ["velocity"]) bench))).
    + reflexivity.
    + eapply claims_ok_cons; [reflexivity|].
      eapply claims_ok_cons; [reflexivity|].
      apply claims_ok_nil.
    + vm_compute. discriminate.
Defined.

(** C1, at the failing input.  The controller was configured with j1 and
    j2; an [on_configure] for the unregistered joint jX is then refused at
    the availability check.  It returns ERROR, and [joint_handles_] is not
    empty: it still holds the two handles of the earlier configuration.
    The return inside the availability loop misses the
    [joint_handles_.clear()] that the claim loop does on its error path. *)
Lemma configure_unavailable_keeps_old_handles :
  let w := configured ["j1"; "j2"] "velocity" (fresh bench) in
  let r := on_configure (node ["jX"] "velocity") UNCONFIGURED w in
  check_command_interfaces "jX" ["velocity"; "velocity"] (hw w)
  <> hardware_interface.OK
  /\ fst r = rclcpp.Returned CallbackReturn.ERROR
  /\ joint_handles_ (this (snd r)) = ["j1"; "j2"]
  /\ joint_handles_ (this (snd r)) <> [].
Proof.
  vm_compute. repeat split; discriminate.
Qed.

(** Three joints configured on a constructed controller. *)
Lemma configure_success_on_rig :
  length (joint_handles_ (this velocity3)) = 3
  /\ nth_error (joint_handles_ (this velocity3)) 1 = Some "j2".
Proof.
  destruct (configure_success_alignment (HW := hardware)
              (node ["j1"; "j2"; "j3"] "velocity") UNCONFIGURED (fresh bench)
              ["j1"; "j2"; "j3"] "velocity" eq_refl eq_refl eq_refl)
    as (handles & C & A & B).
  destruct (B eq_refl) as [L _].
  split; [exact L|reflexivity].
Defined.

(** C8, at the failing input.  The controller was configured with j1; a
    second [on_configure], for j2 and j3, returns SUCCESS and leaves three
    handles for two joint names; handle 0 is the one of j1, not the one
    the claim call returned for the first name, j2.  [joint_handles_] is
    appended to without being cleared at entry. *)
Lemma second_configure_misaligned :
  let w := configured ["j1"] "velocity" (fresh bench) in
  let names := ["j2"; "j3"] in
  let r := on_configure (node names "velocity") UNCONFIGURED w in
  fst r = rclcpp.Returned CallbackReturn.SUCCESS
  /\ length (joint_handles_ (this (snd r))) <> length names
  /\ joint_handles_ (this (snd r)) = ["j1"; "j2"; "j3"]
  /\ fst (claim_command_handle "j2" ["velocity"; "velocity"] (hw w))
     = (hardware_interface.OK, "j2").
Proof.
  vm_compute. repeat split; discriminate.
Qed.

(** On the rig: a list with an unregistered joint, then a corrected
    list. *)
Lemma reconfigure_on_rig :
  let w1 := configured ["j1"; "jX"] "velocity" (fresh bench) in
  let r2 := on_configure (node ["j1"; "j2"] "velocity") UNCONFIGURED w1 in
  fst r2 = rclcpp.Returned CallbackReturn.SUCCESS
  /\ joint_handles_ (this (snd r2)) = ["j1"; "j2"]
  /\ interfaces_ (this (snd r2)) = ["velocity"; "velocity"].
Proof.
  destruct (reconfigure_after_unavailable
              (node ["j1"; "jX"] "velocity") (node ["j1"; "j2"] "velocity")
              UNCONFIGURED UNCONFIGURED (fresh bench)
              ["j1"; "jX"] ["j1"; "j2"] "velocity" "velocity"
              ["j1"; "j2"]
              (record (Claimed "j2" ["velocity"; "velocity"])
                 (record (Claimed "j1" ["velocity"; "velocity"]) bench))
              eq_refl eq_refl ltac:(discriminate) ltac:(discriminate)
              eq_refl eq_refl ltac:(discriminate) ltac:(discriminate)
              eq_refl eq_refl)
    as (_ & S & T & _).
  - exists "jX". split; [right; left; reflexivity|].
    vm_compute. discriminate.
  - intros j [<-|[<-|[]]]; reflexivity.
  - eapply claims_ok_cons; [reflexivity|].
    eapply claims_ok_cons; [reflexivity|].
    apply claims_ok_nil.
  - cbv zeta. unfold configured. split; [exact S|].
    rewrite T. split; reflexivity.
Defined.

(** C5, at the failing inputs.  An [on_configure] for j1 and the
    unregistered jX is refused; the second attempt, for j1 and j2,
    returns SUCCESS, but the controller is not the one a first-time
    [on_configure] gives: [interfaces_] holds the interface name of the
    refused attempt too, the claims were made with that two-element list,
    and every write of a later cycle carries it beside its one value.
    When the refused attempt also named an interface the joints do not
    offer, the second attempt, with the joints and the interface
    corrected, is refused outright: the stale name is checked again.
    [interfaces_.push_back] runs before the checks, and nothing resets
    [interfaces_]. *)
Lemma reconfigure_leaves_residue :
  let bad := node ["j1"; "jX"] "velocity" in
  let worse := node ["j1"; "jX"] "torque" in
  let good := node ["j1"; "j2"] "velocity" in
  let msg := {| data := [1.0%float; 2.0%float] |} in
  let r1 := on_configure bad UNCONFIGURED (fresh bench) in
  let r2 := on_configure good UNCONFIGURED (snd r1) in
  let r1' := on_configure worse UNCONFIGURED (fresh bench) in
  let r2' := on_configure good UNCONFIGURED (snd r1') in
  let first := on_configure good UNCONFIGURED (fresh bench) in
  fst r1' = rclcpp.Returned CallbackReturn.ERROR
  /\ fst r2' = rclcpp.Returned CallbackReturn.ERROR
  /\ joint_handles_ (this (snd r2')) = []
  /\ interfaces_ (this (snd r2')) = ["torque"; "velocity"]
  /\ fst r1 = rclcpp.Returned CallbackReturn.ERROR
  /\ fst r2 = rclcpp.Returned CallbackReturn.SUCCESS
  /\ fst first = rclcpp.Returned CallbackReturn.SUCCESS
  /\ this (snd r2) <> this (snd first)
  /\ interfaces_ (this (snd first)) = ["velocity"]
  /\ interfaces_ (this (snd r2)) = ["velocity"; "velocity"]
  /\ trace (hw (snd r2))
     = [Claimed "j1" ["velocity"; "velocity"];
        Claimed "j2" ["velocity"; "velocity"]]
  /\ option_map (fun rw => trace (hw (snd rw))) (update (publish msg (snd r2)))
     = Some [Claimed "j1" ["velocity"; "velocity"];
             Claimed "j2" ["velocity"; "velocity"];
             Written "j1" [1.0%float] ["velocity"; "velocity"];
             Written "j2" [2.0%float] ["velocity"; "velocity"]].
Proof.
  vm_compute. repeat split; discriminate.
Qed.

(** The counterexample to C6: after [on_deactivate] the three claimed
    handles are still in [joint_handles_], nothing was released, and the
    next cycle writes through them. *)
Lemma deactivate_does_not_release :
  let w := publish msg123 velocity3 in
  let w' := snd (on_deactivate rclcpp.PRIMARY_STATE_ACTIVE w) in
  joint_handles_ (this w') = ["j1"; "j2"; "j3"]
  /\ joint_handles_ (this w') <> []
  /\ hw w' = hw w
  /\ option_map (fun rw => trace (hw (snd rw))) (update w')
     = Some [Claimed "j1" ["velocity"]; Claimed "j2" ["velocity"];
             Claimed "j3" ["velocity"];
             Written "j1" [1.0%float] ["velocity"];
             Written "j2" [2.0%float] ["velocity"];
             Written "j3" [3.0%float] ["velocity"]].
Proof.
  vm_compute. repeat split; discriminate.
Qed.

(** C6 on the rig: three joints configured, a message of three values in
    the mailbox, then [on_deactivate]; the next cycle writes the three
    values through the three handles. *)
Lemma deactivate_keeps_handles_on_rig :
  let w := publish msg123 velocity3 in
  let r := on_deactivate rclcpp.PRIMARY_STATE_ACTIVE w in
  fst r = CallbackReturn.SUCCESS
  /\ joint_handles_ (this (snd r)) = ["j1"; "j2"; "j3"]
  /\ trace (hw (snd r))
     = [Claimed "j1" ["velocity"]; Claimed "j2" ["velocity"];
        Claimed "j3" ["velocity"]]
  /\ option_map (fun rw => trace (hw (snd rw))) (update (snd r))
     = Some [Claimed "j1" ["velocity"]; Claimed "j2" ["velocity"];
             Claimed "j3" ["velocity"];
             Written "j1" [1.0%float] ["velocity"];
             Written "j2" [2.0%float] ["velocity"];
             Written "j3" [3.0%float] ["velocity"]].
Proof.
  cbv zeta.
  destruct (deactivate_keeps_handles (HW := hardware)
              rclcpp.PRIMARY_STATE_ACTIVE (publish msg123 velocity3))
    as (S & K & R & _ & U).
  split; [exact S|]. split; [rewrite K; reflexivity|].
  split; [rewrite R; reflexivity|].
  rewrite (U msg123 eq_refl eq_refl). reflexivity.
Defined.

(** C2 on the rig: joints j1, j2, j3, interface velocity, message
    [1.0, 2.0, 3.0].  The rig records the three writes in index order. *)
Lemma update_forwards_on_rig :
  exists w',
    update (publish msg123 velocity3) = Some (controller_interface.SUCCESS, w')
    /\ trace (hw w')
       = [Claimed "j1" ["velocity"]; Claimed "j2" ["velocity"];
          Claimed "j3" ["velocity"];
          Written "j1" [1.0%float] ["velocity"];
          Written "j2" [2.0%float] ["velocity"];
          Written "j3" [3.0%float] ["velocity"]].
Proof.
  eexists. split.
  - apply (update_forwards_in_index_order (publish msg123 velocity3) msg123);
      reflexivity.
  - reflexivity.
Defined.

(** C3 on the rig: two values for three handles. *)
Lemma update_size_mismatch_on_rig :
  let w := publish {| data := [1.0%float; 2.0%float] |} velocity3 in
  update w = Some (controller_interface.ERROR, w)
  /\ run [cycle; message msg123; cycle] w = run [message msg123; cycle] w.
Proof.
  cbv zeta.
  destruct (update_size_mismatch
              (publish {| data := [1.0%float; 2.0%float] |} velocity3)
              {| data := [1.0%float; 2.0%float] |} eq_refl
              ltac:(vm_compute; discriminate)) as [U R].
  split; [exact U|apply R].
Defined.

(** C4 on the rig: configured and activated, two cycles run, no message. *)
Lemma update_before_any_message_on_rig :
  exists w,
    run [configure (node ["j1"; "j2"; "j3"] "velocity") UNCONFIGURED;
         activate rclcpp.PRIMARY_STATE_INACTIVE; cycle; cycle]
      (constructed bench true) = Some w
    /\ update w = Some (controller_interface.SUCCESS, w).
Proof.
  apply (update_before_any_message bench true
           [configure (node ["j1"; "j2"; "j3"] "velocity") UNCONFIGURED;
            activate rclcpp.PRIMARY_STATE_INACTIVE; cycle; cycle]).
  reflexivity.
Defined.

(** C9 on the rig: joints whose every write reports an error. *)
Lemma update_ignores_write_results_on_rig :
  let w := publish msg123 velocity3 in
  update (HW := failing_hardware) w = update (HW := hardware) w
  /\ exists w',
       update (HW := failing_hardware) w
       = Some (controller_interface.SUCCESS, w')
       /\ trace (hw w')
          = [Claimed "j1" ["velocity"]; Claimed "j2" ["velocity"];
             Claimed "j3" ["velocity"];
             Written "j1" [1.0%float] ["velocity"];
             Written "j2" [2.0%float] ["velocity"];
             Written "j3" [3.0%float] ["velocity"]].
Proof.
  cbv zeta.
  destruct (update_ignores_write_results hardware failing_hardware
              (publish msg123 velocity3) msg123 eq_refl eq_refl
              ltac:(reflexivity)) as [U E].
  split; [exact E|].
  eexists. split; [rewrite E; exact U|reflexivity].
Defined.

(** C10 on the rig: a refused [on_configure] for velocity, then a
    successful one for position.  [interfaces_] holds both names; the rig
    records the claims of the second attempt and the writes of the next
    cycle with the two-element list. *)
Lemma interfaces_accumulate_on_rig :
  let w1 := configured ["j1"; "jX"] "velocity" (fresh bench) in
  let w2 := configured ["j1"; "j2"] "position" w1 in
  let msg := {| data := [1.0%float; 2.0%float] |} in
  (exists w,
     run [configure (node ["j1"; "jX"] "velocity") UNCONFIGURED;
          configure (node ["j1"; "j2"] "position") UNCONFIGURED; cycle]
       (constructed bench true) = Some w
     /\ interfaces_ (this w) = ["velocity"; "position"]
     /\ length (interfaces_ (this w)) = 2)
  /\ trace (hw w2)
     = [Claimed "j1" ["velocity"; "position"];
        Claimed "j2" ["velocity"; "position"]]
  /\ option_map (fun rw => trace (hw (snd rw))) (update (publish msg w2))
     = Some [Claimed "j1" ["velocity"; "position"];
             Claimed "j2" ["velocity"; "position"];
             Written "j1" [1.0%float] ["velocity"; "position"];
             Written "j2" [2.0%float] ["velocity"; "position"]].
Proof.
  cbv zeta.
  destruct (interfaces_accumulate hardware failing_hardware)
    as (_ & A & _ & _ & B & C).
  split; [|split].
  - apply (A [configure (node ["j1"; "jX"] "velocity") UNCONFIGURED;
              configure (node ["j1"; "j2"] "position") UNCONFIGURED; cycle]
             bench true).
  - unfold configured at 1.
    destruct (B (node ["j1"; "j2"] "position") UNCONFIGURED
                (configured ["j1"; "jX"] "velocity" (fresh bench))
                ["j1"; "j2"] "position" eq_refl eq_refl
                ltac:(discriminate) ltac:(discriminate) eq_refl)
      as [_ B2].
    rewrite (B2 ltac:(intros j [<-|[<-|[]]]; reflexivity)
               ["j1"; "j2"]
               (record (Claimed "j2" ["velocity"; "position"])
                  (record (Claimed "j1" ["velocity"; "position"]) bench))
               ltac:(eapply claims_ok_cons; [reflexivity|];
                     eapply claims_ok_cons; [reflexivity|];
                     apply claims_ok_nil)).
    reflexivity.
  - rewrite (C (publish {| data := [1.0%float; 2.0%float] |}
                  (configured ["j1"; "j2"] "position"
                     (configured ["j1"; "jX"] "velocity" (fresh bench))))
               {| data := [1.0%float; 2.0%float] |} eq_refl eq_refl).
    reflexivity.
Defined.

End OnTheRig.

(** ** Further properties of the callbacks *)

Section Callbacks.

Context {H J : Type} {HW : Hardware H J}.

Local Abbreviation World := (@World H J).

(** *** The claim loop, in full *)

Lemma claim_loop_false_this (names : list string) :
  forall (w w1 : World),
    claim_loop names w = (false, w1) ->
    this w1 = set_joint_handles [] (this w)
    /\ resource_manager_ w1 = resource_manager_ w.
Proof.
  induction names as [|n names IH]; intros w w1 E; cbn in E.
  - discriminate.
  - destruct (claim_command_handle n (interfaces_ (this w)) (hw w))
      as [[r x] h].
    destruct (hardware_interface.is_OK r).
    + apply IH in E. cbn in E. exact E.
    + inversion E; subst. cbn. auto.
Qed.

Lemma claim_loop_true_this (names : list string) :
  forall (w w1 : World),
    claim_loop names w = (true, w1) ->
    exists handles,
      claims_ok (interfaces_ (this w)) names (hw w) handles (hw w1)
      /\ this w1
         = set_joint_handles (joint_handles_ (this w) ++ handles) (this w)
      /\ resource_manager_ w1 = resource_manager_ w.
Proof.
  intros w w1 E.
  destruct (claim_loop_true_inv names w w1 E) as (handles & C & _).
  exists handles. split; [exact C|].
  rewrite (claim_loop_ok (interfaces_ (this w)) names w handles (hw w1)
             eq_refl C) in E.
  inversion E; subst. cbn. auto.
Qed.

(** The four ways through the second half of [on_configure]. *)
Lemma acquire_cases (names : list string) (w : World) :
  (resource_manager_ w = false
   /\ acquire names w = (rclcpp.Returned CallbackReturn.ERROR, w))
  \/ (resource_manager_ w = true /\ check_loop names w = false
      /\ acquire names w = (rclcpp.Returned CallbackReturn.ERROR, w))
  \/ (resource_manager_ w = true /\ check_loop names w = true
      /\ exists w1,
           claim_loop names w = (false, w1)
           /\ acquire names w = (rclcpp.Returned CallbackReturn.ERROR, w1))
  \/ (resource_manager_ w = true /\ check_loop names w = true
      /\ exists w1,
           claim_loop names w = (true, w1)
           /\ acquire names w
              = (rclcpp.Returned CallbackReturn.SUCCESS,
                 create_subscription w1)).
Proof.
  unfold acquire.
  destruct (resource_manager_ w); [|left; auto].
  destruct (check_loop names w); [|right; left; auto].
  destruct (claim_loop names w) as [[|] w1].
  - right; right; right. eauto 6.
  - right; right; left. eauto 6.
Qed.

Lemma passes_inv (node : rclcpp.LifecycleNode) :
  passes_parameter_checks node = true ->
  exists names interface_name,
    rclcpp.get_parameter node "joints"
    = Some (rclcpp.PARAMETER_STRING_ARRAY names)
    /\ rclcpp.get_parameter node "interface_name"
       = Some (rclcpp.PARAMETER_STRING interface_name)
    /\ names <> [] /\ interface_name <> "".
Proof.
  unfold passes_parameter_checks.
  destruct (rclcpp.get_parameter node "joints")
    as [[| | | | | | | |[|n names]]|]; try discriminate.
  destruct (rclcpp.get_parameter node "interface_name")
    as [[| | | |[|a s]| | | |]|]; try discriminate.
  intros _. exists (n :: names), (String a s).
  repeat split; discriminate.
Qed.

Lemma passes_intro (node : rclcpp.LifecycleNode) names interface_name :
  rclcpp.get_parameter node "joints"
  = Some (rclcpp.PARAMETER_STRING_ARRAY names) ->
  rclcpp.get_parameter node "interface_name"
  = Some (rclcpp.PARAMETER_STRING interface_name) ->
  names <> [] -> interface_name <> "" ->
  passes_parameter_checks node = true.
Proof.
  intros Hj Hi Hn He. unfold passes_parameter_checks. rewrite Hj, Hi.
  destruct names; [congruence|].
  destruct interface_name; [congruence|reflexivity].
Qed.

(** Short of the push, [on_configure] changes nothing and does not
    succeed. *)
Lemma not_passes_unchanged (node : rclcpp.LifecycleNode)
    (previous_state : rclcpp.State) (w : World) :
  passes_parameter_checks node = false ->
  snd (on_configure node previous_state w) = w
  /\ fst (on_configure node previous_state w)
     <> rclcpp.Returned CallbackReturn.SUCCESS.
Proof.
  unfold passes_parameter_checks, on_configure.
  destruct (rclcpp.get_parameter node "joints") as [pj|];
    [|split; [reflexivity|discriminate]].
  destruct (rclcpp.get_parameter node "interface_name") as [pi|];
    [|split; [reflexivity|discriminate]].
  destruct pj as [| | | | | | | |[|n names]]; cbn;
    try (split; [reflexivity|discriminate]).
  destruct pi as [| | | |iface| | | |]; cbn;
    try (split; [reflexivity|discriminate]).
  destruct (empty iface); cbn; [|discriminate].
  split; [reflexivity|discriminate].
Qed.

(** What a successful [on_configure] leaves in the controller. *)
Lemma on_configure_success_inv (node : rclcpp.LifecycleNode)
    (previous_state : rclcpp.State) (w : World) names interface_name :
  rclcpp.get_parameter node "joints"
  = Some (rclcpp.PARAMETER_STRING_ARRAY names) ->
  rclcpp.get_parameter node "interface_name"
  = Some (rclcpp.PARAMETER_STRING interface_name) ->
  fst (on_configure node previous_state w)
  = rclcpp.Returned CallbackReturn.SUCCESS ->
  let ifs := interfaces_ (this w) ++ [interface_name] in
  let w' := snd (on_configure node previous_state w) in
  names <> [] /\ interface_name <> "" /\ resource_manager_ w = true
  /\ (forall j, In j names ->
        check_command_interfaces j ifs (hw w) = hardware_interface.OK)
  /\ exists handles,
       claims_ok ifs names (hw w) handles (hw w')
       /\ this w'
          = set_subscriber (Some {| topic := "commands" |})
              (set_joint_handles (joint_handles_ (this w) ++ handles)
                 (set_interfaces ifs (this w))).
Proof.
  intros Hj Hi Hs. cbv zeta.
  destruct (passes_parameter_checks node) eqn:P.
  - destruct (passes_inv node P) as (names' & iface' & Hj' & Hi' & Hn & He).
    rewrite Hj in Hj'. rewrite Hi in Hi'.
    inversion Hj'; inversion Hi'; subst names' iface'.
    rewrite (on_configure_checked node previous_state w names interface_name
               Hj Hi Hn He) in *.
    destruct (acquire_cases names (push_back_interface interface_name w))
      as [(_ & E)|[(_ & _ & E)|[(_ & _ & w1 & _ & E)|(A & C & w1 & L & E)]]];
      rewrite E in *; try discriminate.
    apply claim_loop_true_this in L. destruct L as (handles & K & T & _).
    repeat split; try assumption.
    + apply (proj1 (check_loop_true names _) C).
    + exists handles. split; [exact K|]. cbn. rewrite T. reflexivity.
  - destruct (not_passes_unchanged node previous_state w P) as [_ N].
    contradiction.
Qed.

(** Every cycle returns the world it was given, up to the hardware. *)
Lemma update_with_hw (w : World) r w' :
  update w = Some (r, w') -> w' = with_hw (hw w') w.
Proof.
  unfold update.
  destruct (rt_command_ptr_ (this w)) as [msg|] eqn:Hm;
    [|intros E; inversion E; subst; now rewrite with_hw_same].
  destruct (Nat.eqb (length (data msg)) (length (joint_handles_ (this w))))
    eqn:L; cbn [negb];
    [|intros E; inversion E; subst; now rewrite with_hw_same].
  apply Nat.eqb_eq in L.
  pose proof (update_matching w msg Hm L) as U. unfold update in U.
  rewrite Hm, L, Nat.eqb_refl in U. cbn [negb] in U. rewrite <- L in U.
  destruct (update_loop _ _ _ _); [|discriminate].
  intros E. inversion E; subst. inversion U; subst. reflexivity.
Qed.

(** *** on_configure: the parameters *)

(** X1.  When a parameter is not set, the joint list is empty, or the
    interface name is empty, [on_configure] returns ERROR and leaves
    everything as it was: nothing is pushed, checked, claimed or
    subscribed. *)
Theorem on_configure_missing_configuration (node : rclcpp.LifecycleNode)
    (previous_state : rclcpp.State) (w : World) :
  rclcpp.get_parameter node "joints" = None
  \/ rclcpp.get_parameter node "interface_name" = None
  \/ rclcpp.get_parameter node "joints"
     = Some (rclcpp.PARAMETER_STRING_ARRAY [])
  \/ (exists n names,
        rclcpp.get_parameter node "joints"
        = Some (rclcpp.PARAMETER_STRING_ARRAY (n :: names))
        /\ rclcpp.get_parameter node "interface_name"
           = Some (rclcpp.PARAMETER_STRING "")) ->
  on_configure node previous_state w
  = (rclcpp.Returned CallbackReturn.ERROR, w).
Proof.
  unfold on_configure.
  intros [E|[E|[E|(n & names & E1 & E2)]]].
  - now rewrite E.
  - rewrite E. now destruct (rclcpp.get_parameter node "joints").
  - rewrite E. now destruct (rclcpp.get_parameter node "interface_name").
  - now rewrite E1, E2.
Qed.

(** X2.  [on_configure] is left by an exception exactly when both
    parameters are set and the joint list is not a string array, or it is
    a non-empty string array and the interface name is not a string.  The
    exception leaves everything as it was. *)
Theorem on_configure_throws_iff (node : rclcpp.LifecycleNode)
    (previous_state : rclcpp.State) (w : World) :
  (fst (on_configure node previous_state w)
   = rclcpp.Thrown_ParameterTypeException
   <-> exists pj pi,
         rclcpp.get_parameter node "joints" = Some pj
         /\ rclcpp.get_parameter node "interface_name" = Some pi
         /\ (rclcpp.as_string_array pj = None
             \/ exists n names,
                  pj = rclcpp.PARAMETER_STRING_ARRAY (n :: names)
                  /\ rclcpp.as_string pi = None))
  /\ (fst (on_configure node previous_state w)
      = rclcpp.Thrown_ParameterTypeException ->
      snd (on_configure node previous_state w) = w).
Proof.
  assert (A : forall names, fst (acquire names w) <>
                            rclcpp.Thrown_ParameterTypeException
              /\ forall i, fst (acquire names (push_back_interface i w)) <>
                           rclcpp.Thrown_ParameterTypeException).
  { intros names. split; [|intros i].
    - destruct (acquire_cases names w)
        as [(_ & E)|[(_ & _ & E)|[(_ & _ & w1 & _ & E)|(_ & _ & w1 & _ & E)]]];
        rewrite E; discriminate.
    - destruct (acquire_cases names (push_back_interface i w))
        as [(_ & E)|[(_ & _ & E)|[(_ & _ & w1 & _ & E)|(_ & _ & w1 & _ & E)]]];
        rewrite E; discriminate. }
  unfold on_configure.
  destruct (rclcpp.get_parameter node "joints") as [pj|].
  2:{ split; [split; [discriminate|]|discriminate].
      intros (? & ? & ? & _); discriminate. }
  destruct (rclcpp.get_parameter node "interface_name") as [pi|].
  2:{ split; [split; [discriminate|]|discriminate].
      intros (? & ? & _ & ? & _); discriminate. }
  destruct (rclcpp.as_string_array pj) as [names|] eqn:Ej.
  2:{ split; [split; [intros _|reflexivity]|reflexivity].
      exists pj, pi. auto. }
  destruct pj; try discriminate. inversion Ej; subst.
  destruct names as [|n names].
  { split; [split; [discriminate|]|discriminate].
    intros (pj & pi' & Hj & _ & [Hx|(n & names & Hx & _)]);
      inversion Hj; subst; discriminate. }
  destruct (rclcpp.as_string pi) as [iface|] eqn:Ei.
  2:{ split; [split; [intros _|reflexivity]|reflexivity].
      exists (rclcpp.PARAMETER_STRING_ARRAY (n :: names)), pi.
      repeat split. right. eauto. }
  split.
  - split.
    + destruct (empty iface); [discriminate|]. intros E.
      exfalso. exact (proj2 (A (n :: names)) iface E).
    + intros (pj & pi' & Hj & Hi & [Hx|(n' & names' & _ & Hx)]).
      * inversion Hj; subst. discriminate.
      * inversion Hi; subst. congruence.
  - destruct (empty iface); [discriminate|]. intros E.
    exfalso. exact (proj2 (A (n :: names)) iface E).
Qed.

(** *** on_configure: the resource manager *)

(** X3.  When the resource manager cannot be locked, [on_configure]
    returns ERROR after the interface name has been pushed: [interfaces_]
    has grown by one entry; handles, mailbox, subscription and hardware
    are as they were. *)
Theorem on_configure_without_resource_manager (node : rclcpp.LifecycleNode)
    (previous_state : rclcpp.State) (w : World) names interface_name :
  rclcpp.get_parameter node "joints"
  = Some (rclcpp.PARAMETER_STRING_ARRAY names) ->
  rclcpp.get_parameter node "interface_name"
  = Some (rclcpp.PARAMETER_STRING interface_name) ->
  names <> [] ->
  interface_name <> "" ->
  resource_manager_ w = false ->
  let r := on_configure node previous_state w in
  fst r = rclcpp.Returned CallbackReturn.ERROR
  /\ interfaces_ (this (snd r)) = interfaces_ (this w) ++ [interface_name]
  /\ joint_handles_ (this (snd r)) = joint_handles_ (this w)
  /\ rt_command_ptr_ (this (snd r)) = rt_command_ptr_ (this w)
  /\ joints_command_subscriber_ (this (snd r))
     = joints_command_subscriber_ (this w)
  /\ hw (snd r) = hw w.
Proof.
  intros Hj Hi Hn He Ha. cbv zeta.
  rewrite (on_configure_checked node previous_state w names interface_name
             Hj Hi Hn He).
  unfold acquire. cbn [push_back_interface with_this resource_manager_].
  rewrite Ha. cbn. auto 6.
Qed.

(** X4.  [on_configure] returns SUCCESS exactly when both parameters are
    read and not empty, the resource manager is locked, every joint passes
    the availability check and every joint is then claimed, all with
    [interfaces_] extended by the interface name. *)
Theorem on_configure_success_iff (node : rclcpp.LifecycleNode)
    (previous_state : rclcpp.State) (w : World) :
  fst (on_configure node previous_state w)
  = rclcpp.Returned CallbackReturn.SUCCESS
  <-> exists names interface_name handles h',
        rclcpp.get_parameter node "joints"
        = Some (rclcpp.PARAMETER_STRING_ARRAY names)
        /\ rclcpp.get_parameter node "interface_name"
           = Some (rclcpp.PARAMETER_STRING interface_name)
        /\ names <> [] /\ interface_name <> ""
        /\ resource_manager_ w = true
        /\ (forall j, In j names ->
              check_command_interfaces j
                (interfaces_ (this w) ++ [interface_name]) (hw w)
              = hardware_interface.OK)
        /\ claims_ok (interfaces_ (this w) ++ [interface_name]) names (hw w)
             handles h'.
Proof.
  split.
  - intros S.
    destruct (passes_parameter_checks node) eqn:P.
    + destruct (passes_inv node P) as (names & iface & Hj & Hi & _).
      destruct (on_configure_success_inv node previous_state w names iface
                  Hj Hi S) as (Hn & He & Ha & Hc & handles & K & _).
      exists names, iface, handles. eauto 10.
    + destruct (not_passes_unchanged node previous_state w P) as [_ N].
      contradiction.
  - intros (names & iface & handles & h' & Hj & Hi & Hn & He & Ha & Hc & K).
    rewrite (on_configure_checked node previous_state w names iface
               Hj Hi Hn He).
    unfold acquire. cbn [push_back_interface with_this resource_manager_].
    rewrite Ha, (proj2 (check_loop_true names _)) by exact Hc.
    erewrite claim_loop_ok; [|reflexivity|exact K]. reflexivity.
Qed.

(** X5.  [on_configure] touches the subscription only when it returns
    SUCCESS, and then holds a subscription to the topic "commands"; on
    every other path the subscription is the one held before.  The
    mailbox is never touched. *)
Theorem on_configure_subscribes_on_success (node : rclcpp.LifecycleNode)
    (previous_state : rclcpp.State) (w : World) :
  let r := on_configure node previous_state w in
  rt_command_ptr_ (this (snd r)) = rt_command_ptr_ (this w)
  /\ ((fst r = rclcpp.Returned CallbackReturn.SUCCESS
       /\ joints_command_subscriber_ (this (snd r))
          = Some {| topic := "commands" |})
      \/ (fst r <> rclcpp.Returned CallbackReturn.SUCCESS
          /\ joints_command_subscriber_ (this (snd r))
             = joints_command_subscriber_ (this w))).
Proof.
  cbv zeta. split; [apply on_configure_frame|].
  destruct (passes_parameter_checks node) eqn:P.
  - destruct (passes_inv node P) as (names & iface & Hj & Hi & Hn & He).
    rewrite (on_configure_checked node previous_state w names iface
               Hj Hi Hn He).
    destruct (acquire_cases names (push_back_interface iface w))
      as [(_ & E)|[(_ & _ & E)|[(_ & _ & w1 & L & E)|(_ & _ & w1 & _ & E)]]];
      rewrite E; cbn.
    + right. split; [discriminate|reflexivity].
    + right. split; [discriminate|reflexivity].
    + right. split; [discriminate|].
      apply claim_loop_frame in L. cbn in L. tauto.
    + left. auto.
  - destruct (not_passes_unchanged node previous_state w P) as [U N].
    right. rewrite U. auto.
Qed.

(** X6.  When a claim is refused after the availability checks passed,
    the controller drops its handles but the hardware is left as the
    claim calls made it: the joints claimed before the refusal stay
    claimed, nothing is handed back.  Mailbox and subscription are as
    they were and the interface name stays pushed. *)
Theorem on_configure_refused_claim_state (node : rclcpp.LifecycleNode)
    (previous_state : rclcpp.State) (w : World)
    (names : list string) (interface_name : string)
    pre j suf handles h1 :
  rclcpp.get_parameter node "joints"
  = Some (rclcpp.PARAMETER_STRING_ARRAY names) ->
  rclcpp.get_parameter node "interface_name"
  = Some (rclcpp.PARAMETER_STRING interface_name) ->
  interface_name <> "" ->
  resource_manager_ w = true ->
  let ifs := interfaces_ (this w) ++ [interface_name] in
  (forall j, In j names ->
     check_command_interfaces j ifs (hw w) = hardware_interface.OK) ->
  names = pre ++ j :: suf ->
  claims_ok ifs pre (hw w) handles h1 ->
  fst (fst (claim_command_handle j ifs h1)) <> hardware_interface.OK ->
  snd (on_configure node previous_state w)
  = {| this :=
         {| joint_handles_ := [];
            interfaces_ := ifs;
            rt_command_ptr_ := rt_command_ptr_ (this w);
            joints_command_subscriber_ :=
              joints_command_subscriber_ (this w) |};
       hw := snd (claim_command_handle j ifs h1);
       resource_manager_ := true |}.
Proof.
  intros Hj Hi He Ha ifs Hc Hs Hp Hr.
  assert (Hn : names <> []) by (subst names; now destruct pre).
  rewrite (on_configure_checked node previous_state w names interface_name
             Hj Hi Hn He).
  unfold acquire. cbn [push_back_interface with_this resource_manager_].
  rewrite Ha, (proj2 (check_loop_true names _)) by exact Hc.
  subst names.
  erewrite claim_loop_refused; [|reflexivity|exact Hp|exact Hr].
  unfold with_hw, with_this, push_back_interface, set_joint_handles,
    set_interfaces. cbn. rewrite Ha. reflexivity.
Qed.

(** *** update *)

(** X7.  A cycle always completes, reading no vector past its end, and
    never modifies the controller: handles, interface names, mailbox and
    subscription after it are the ones before it; only the hardware
    changes. *)
Theorem update_keeps_controller (w : World) :
  exists r w',
    update w = Some (r, w')
    /\ this w' = this w
    /\ resource_manager_ w' = resource_manager_ w.
Proof.
  destruct (update_defined w) as (r & w' & U).
  exists r, w'. split; [exact U|].
  apply update_with_hw in U. rewrite U. cbn. auto.
Qed.

(** X8.  The mailbox is not consumed by a cycle: as long as no new message
    arrives, every cycle forwards the same message again, so [n] cycles
    apply the writes of that message [n] times. *)
Theorem update_repeats_latest_message (w : World) (msg : CmdType) (n : nat) :
  rt_command_ptr_ (this w) = Some msg ->
  length (data msg) = length (joint_handles_ (this w)) ->
  run (repeat cycle n) w
  = Some (with_hw
            (Nat.iter n
               (forward (interfaces_ (this w)) (joint_handles_ (this w))
                  (data msg))
               (hw w))
            w).
Proof.
  intros Hm Hl.
  assert (G : forall k h,
             run (repeat cycle k) (with_hw h w)
             = Some (with_hw
                       (Nat.iter k
                          (forward (interfaces_ (this w))
                             (joint_handles_ (this w)) (data msg)) h) w)).
  { induction k as [|k IH]; intros h.
    - reflexivity.
    - cbn [repeat run step].
      rewrite (update_matching (with_hw h w) msg Hm Hl).
      change (with_hw ?a (with_hw h w)) with (with_hw a w).
      cbn [with_hw this hw]. rewrite IH, Nat.iter_succ_r. reflexivity. }
  rewrite <- (with_hw_same w) at 1. apply G.
Qed.

(** *** on_configure and update together *)

(** X9.  After a successful [on_configure] on a controller that held no
    handle, a published message reaches the mailbox, and the next cycle
    accepts it exactly when it has one value per configured joint: then
    value [i] is written to the handle claimed for joint name [i];
    otherwise the cycle returns ERROR and writes nothing. *)
Theorem first_configure_then_update (node : rclcpp.LifecycleNode)
    (previous_state : rclcpp.State) (w : World)
    (names : list string) (interface_name : string) (msg : CmdType) :
  rclcpp.get_parameter node "joints"
  = Some (rclcpp.PARAMETER_STRING_ARRAY names) ->
  rclcpp.get_parameter node "interface_name"
  = Some (rclcpp.PARAMETER_STRING interface_name) ->
  joint_handles_ (this w) = [] ->
  fst (on_configure node previous_state w)
  = rclcpp.Returned CallbackReturn.SUCCESS ->
  let ifs := interfaces_ (this w) ++ [interface_name] in
  let w' := snd (on_configure node previous_state w) in
  let w1 := publish msg w' in
  exists handles,
    claims_ok ifs names (hw w) handles (hw w')
    /\ rt_command_ptr_ (this w1) = Some msg
    /\ (length (data msg) = length names ->
        update w1
        = Some (controller_interface.SUCCESS,
                with_hw (forward ifs handles (data msg) (hw w')) w1))
    /\ (length (data msg) <> length names ->
        update w1 = Some (controller_interface.ERROR, w1)).
Proof.
  intros Hj Hi Hempty Hs. cbv zeta.
  destruct (on_configure_success_inv node previous_state w names
              interface_name Hj Hi Hs)
    as (_ & _ & _ & _ & handles & K & T).
  exists handles. split; [exact K|].
  rewrite Hempty in T. cbn [app] in T.
  pose proof (claims_ok_length _ _ _ _ _ K) as L.
  destruct (snd (on_configure node previous_state w)) as [c h' a].
  cbn in T. subst c.
  change (publish msg ?x) with (writeFromNonRT msg x).
  split; [reflexivity|]. split.
  - intros Hl.
    erewrite update_matching; [|reflexivity|cbn; congruence].
    reflexivity.
  - intros Hl. unfold update. cbn.
    rewrite L. apply Nat.eqb_neq in Hl. rewrite Hl. reflexivity.
Qed.

(** X10.  A successful [on_configure] on a controller that already holds
    handles leaves more handles than joint names, so the next cycle
    rejects with ERROR a message that has one value per configured joint,
    and writes nothing. *)
Theorem second_configure_then_update (node : rclcpp.LifecycleNode)
    (previous_state : rclcpp.State) (w : World)
    (names : list string) (interface_name : string) (msg : CmdType) :
  rclcpp.get_parameter node "joints"
  = Some (rclcpp.PARAMETER_STRING_ARRAY names) ->
  rclcpp.get_parameter node "interface_name"
  = Some (rclcpp.PARAMETER_STRING interface_name) ->
  joint_handles_ (this w) <> [] ->
  fst (on_configure node previous_state w)
  = rclcpp.Returned CallbackReturn.SUCCESS ->
  length (data msg) = length names ->
  let w1 := publish msg (snd (on_configure node previous_state w)) in
  length (joint_handles_ (this w1))
  = length (joint_handles_ (this w)) + length names
  /\ update w1 = Some (controller_interface.ERROR, w1).
Proof.
  intros Hj Hi Hold Hs Hl. cbv zeta.
  destruct (on_configure_success_inv node previous_state w names
              interface_name Hj Hi Hs)
    as (_ & _ & _ & _ & handles & K & T).
  pose proof (claims_ok_length _ _ _ _ _ K) as L.
  assert (N : length (joint_handles_ (this w) ++ handles)
              = length (joint_handles_ (this w)) + length names)
    by (rewrite length_app; congruence).
  destruct (snd (on_configure node previous_state w)) as [c h' a].
  cbn in T. subst c.
  change (publish msg ?x) with (writeFromNonRT msg x).
  split; [exact N|].
  unfold update. cbn. rewrite N, Hl.
  replace (Nat.eqb (length names)
             (length (joint_handles_ (this w)) + length names)) with false;
    [reflexivity|].
  symmetry. apply Nat.eqb_neq.
  destruct (joint_handles_ (this w)); [congruence|]. cbn. lia.
Qed.

(** *** An invariant of every run *)

Lemma step_subscribed_or_idle (c : Call) (w w' : World) :
  step c w = Some w' -> subscribed_or_idle w -> subscribed_or_idle w'.
Proof.
  unfold subscribed_or_idle.
  destruct c as [node st|st|st| |msg]; cbn [step]; intros E I.
  - inversion E; subst; clear E.
    destruct (passes_parameter_checks node) eqn:P.
    + destruct (passes_inv node P) as (names & iface & Hj & Hi & Hn & He).
      rewrite (on_configure_checked node st w names iface Hj Hi Hn He).
      destruct (acquire_cases names (push_back_interface iface w))
        as [(_ & E)|[(_ & _ & E)|[(_ & _ & w1 & L & E)|(_ & _ & w1 & _ & E)]]];
        rewrite E; cbn [snd].
      * exact I.
      * exact I.
      * apply claim_loop_false_this in L. destruct L as [T _].
        rewrite T. cbn. tauto.
      * left. reflexivity.
    + now rewrite (proj1 (not_passes_unchanged node st w P)).
  - inversion E; subst. exact I.
  - inversion E; subst. exact I.
  - destruct (update w) as [[r w1]|] eqn:U; [|discriminate].
    inversion E; subst. apply update_with_hw in U. rewrite U. exact I.
  - inversion E; subst. unfold publish.
    destruct (joints_command_subscriber_ (this w)) eqn:S;
      [|rewrite S; exact I].
    cbn. rewrite S. destruct I as [I|(I & _)]; [left; exact I|discriminate].
Qed.

(** X11.  Whatever calls are made on a constructed controller, the run
    never reaches undefined behaviour, and at every point the controller
    either holds the subscription to "commands", or it has never
    subscribed and then holds no handle and an empty mailbox: handles and
    messages are only ever held by a controller that listens. *)
Theorem run_subscribed_or_idle (calls : list Call) (h : H) (alive : bool) :
  exists w,
    run calls (constructed h alive) = Some w /\ subscribed_or_idle w.
Proof.
  assert (G : forall l (w : World),
             subscribed_or_idle w ->
             exists w', run l w = Some w' /\ subscribed_or_idle w').
  { induction l as [|c l IH]; intros w I; cbn.
    - eauto.
    - destruct (step_defined c w) as (w1 & E). rewrite E.
      apply IH. eapply step_subscribed_or_idle; eassumption. }
  apply G. right. cbn. auto.
Qed.

End Callbacks.

(** ** The further properties on the test rig *)

Section CallbacksOnTheRig.

Import Rig.

Local Abbreviation UNCONFIGURED := rclcpp.PRIMARY_STATE_UNCONFIGURED.
Local Abbreviation velocity3 :=
  (configured ["j1"; "j2"; "j3"] "velocity" (fresh bench)).

(** X1 on the rig: an empty joint list. *)
Lemma on_configure_missing_configuration_on_rig :
  on_configure (node [] "velocity") UNCONFIGURED (fresh bench)
  = (rclcpp.Returned CallbackReturn.ERROR, fresh bench).
Proof.
  apply (on_configure_missing_configuration (HW := hardware)
           (node [] "velocity") UNCONFIGURED (fresh bench)).
  right; right; left. reflexivity.
Defined.

(** X3 on the rig: the resource manager is gone. *)
Lemma on_configure_without_resource_manager_on_rig :
  let r := on_configure (node ["j1"] "velocity") UNCONFIGURED
             (constructed bench false) in
  fst r = rclcpp.Returned CallbackReturn.ERROR
  /\ interfaces_ (this (snd r)) = ["velocity"]
  /\ hw (snd r) = bench.
Proof.
  cbv zeta.
  destruct (on_configure_without_resource_manager (HW := hardware)
              (node ["j1"] "velocity") UNCONFIGURED (constructed bench false)
              ["j1"] "velocity" eq_refl eq_refl
              ltac:(discriminate) ltac:(discriminate) eq_refl)
    as (E & I & _ & _ & _ & K).
  split; [exact E|]. split; [exact I|exact K].
Defined.

(** X6 on the rig: a joint listed twice; the two joints claimed before the
    refusal stay claimed on the rig. *)
Lemma on_configure_refused_claim_on_rig :
  let w' := configured ["j1"; "j2"; "j1"] "velocity" (fresh bench) in
  joint_handles_ (this w') = []
  /\ trace (hw w')
     = [Claimed "j1" ["velocity"]; Claimed "j2" ["velocity"];
        Refused "j1" ["velocity"]].
Proof.
  cbv zeta. unfold configured.
  rewrite (on_configure_refused_claim_state (HW := hardware)
             (node ["j1"; "j2"; "j1"] "velocity") UNCONFIGURED (fresh bench)
             ["j1"; "j2"; "j1"] "velocity"
             ["j1"; "j2"] "j1" [] ["j1"; "j2"]
             (record (Claimed "j2" ["velocity"])
                (record (Claimed "j1" ["velocity"]) bench))
             eq_refl eq_refl ltac:(discriminate) eq_refl
             ltac:(intros j [<-|[<-|[<-|[]]]]; reflexivity)
             eq_refl
             ltac:(eapply claims_ok_cons; [reflexivity|];
                   eapply claims_ok_cons; [reflexivity|];
                   apply claims_ok_nil)
             ltac:(vm_compute; discriminate)).
  split; reflexivity.
Defined.

(** X8 on the rig: two cycles on one message write it twice. *)
Lemma update_repeats_latest_message_on_rig :
  option_map (fun w => trace (hw w))
    (run (repeat cycle 2) (publish msg123 velocity3))
  = Some [Claimed "j1" ["velocity"]; Claimed "j2" ["velocity"];
          Claimed "j3" ["velocity"];
          Written "j1" [1.0%float] ["velocity"];
          Written "j2" [2.0%float] ["velocity"];
          Written "j3" [3.0%float] ["velocity"];
          Written "j1" [1.0%float] ["velocity"];
          Written "j2" [2.0%float] ["velocity"];
          Written "j3" [3.0%float] ["velocity"]].
Proof.
  rewrite (update_repeats_latest_message (HW := hardware)
             (publish msg123 velocity3) msg123 2 eq_refl eq_refl).
  reflexivity.
Defined.

(** X9 on the rig: three joints, then a message of three values and one
    of two. *)
Lemma first_configure_then_update_on_rig :
  (exists w'',
     update (publish msg123 velocity3)
     = Some (controller_interface.SUCCESS, w''))
  /\ update (publish {| data := [1.0%float; 2.0%float] |} velocity3)
     = Some (controller_interface.ERROR,
             publish {| data := [1.0%float; 2.0%float] |} velocity3).
Proof.
  split.
  - destruct (first_configure_then_update (HW := hardware)
                (node ["j1"; "j2"; "j3"] "velocity") UNCONFIGURED
                (fresh bench) ["j1"; "j2"; "j3"] "velocity" msg123
                eq_refl eq_refl eq_refl eq_refl)
      as (handles & _ & _ & A & _).
    eexists. exact (A eq_refl).
  - destruct (first_configure_then_update (HW := hardware)
                (node ["j1"; "j2"; "j3"] "velocity") UNCONFIGURED
                (fresh bench) ["j1"; "j2"; "j3"] "velocity"
                {| data := [1.0%float; 2.0%float] |}
                eq_refl eq_refl eq_refl eq_refl)
      as (handles & _ & _ & _ & B).
    apply B. vm_compute. discriminate.
Defined.

(** X10 on the rig: one joint configured, then two others; a message of
    two values is rejected. *)
Lemma second_configure_then_update_on_rig :
  let w := configured ["j1"] "velocity" (fresh bench) in
  let w1 := publish {| data := [1.0%float; 2.0%float] |}
              (configured ["j2"; "j3"] "velocity" w) in
  length (joint_handles_ (this w1)) = 3
  /\ update w1 = Some (controller_interface.ERROR, w1).
Proof.
  cbv zeta.
  apply (second_configure_then_update (HW := hardware)
           (node ["j2"; "j3"] "velocity") UNCONFIGURED
           (configured ["j1"] "velocity" (fresh bench))
           ["j2"; "j3"] "velocity" {| data := [1.0%float; 2.0%float] |}
           eq_refl eq_refl ltac:(vm_compute; discriminate) eq_refl eq_refl).
Defined.

End CallbacksOnTheRig.
